(** * LingoPop: lookup pipeline, notebook store, chat and story weaving

    A shallow embedding of the TypeScript sources

      - [types.ts]                    the data model,
      - [constants.ts]                [LANGUAGES], [DEFAULT_SETTINGS],
      - [services/geminiService.ts]   the collaborators' wrappers,
      - [App.tsx] (both revisions)    search, notebook and persistence,
      - [components/NotebookView.tsx] story weaving,
      - [components/ResultCard.tsx]   the chat session,

    followed by the properties of the specification that concern them.

    Modelling conventions.  A JavaScript string is a [string]: a sequence
    of code units, here restricted to the 8-bit ones.  A TypeScript
    interface is a record, and the objects are taken at their declared
    types (the code never validates what [JSON.parse] hands back).  A
    React state cell is a field of [AppState]; an event handler is a
    function on that state, run with the closure of the latest render.  An
    [async] handler is cut at its [await]: the part before it runs when the
    handler is invoked, the continuation runs when the awaited promise
    settles, and any other handler may run in between. *)

From Stdlib Require Import ZArith String Ascii List Bool Lia.
From Stdlib Require QArith.
From stdpp Require Import gmap strings list.
Import ListNotations.
Local Open Scope string_scope.

(** ** types.ts *)

Module types.

Record Language := { code : string; name : string; flag : string }.

Record ExampleSentence := { original : string; translated : string }.

Record ConjugationForm := { pronoun : string; form : string }.

Record Conjugation :=
  { infinitive : string; tenseName : string; forms : list ConjugationForm }.

(** [conjugations?] and [imageUrl?] are optional properties: [None] is
    the absent ([undefined]) property. *)
Record DictionaryResult := {
  word : string;
  explanation : string;
  examples : list ExampleSentence;
  friendlyNote : string;
  conjugations : option Conjugation;
  imageUrl : option string;
  timestamp : Z;
  sourceLang : string;
  targetLang : string
}.

(** [interface SavedItem extends DictionaryResult { id: string }]: the
    coercion is the structural upcast, so that [word i] reads [i.word]
    for a saved item as well. *)
Record SavedItem := { dict :> DictionaryResult; id : string }.

Inductive Role := user | model.

Record ChatMessage := { role : Role; text : string }.

Inductive AppMode := SEARCH | NOTEBOOK | FLASHCARDS.

Record AppSettings := { apiKey : string; textModel : string }.

End types.
Import types.

(** What [lookupWord] resolves to:
    [Omit<DictionaryResult, 'imageUrl' | 'timestamp' | 'sourceLang' | 'targetLang'>]. *)
Record TextData := {
  td_word : string;
  td_explanation : string;
  td_examples : list ExampleSentence;
  td_friendlyNote : string;
  td_conjugations : option Conjugation
}.

(** ** JavaScript values the code relies on *)

(** A thrown value; [message] may be missing ([error.message?.…]). *)
Record JsError := { message : option string }.

(** The two ways a promise settles (also: a call returns or throws). *)
Inductive settled (A : Type) :=
| Fulfilled (a : A)
| Rejected (e : JsError).
Arguments Fulfilled {A} a.
Arguments Rejected {A} e.

(** White space of [String.prototype.trim] among the 8-bit code units:
    TAB, LF, VT, FF, CR, SP and NBSP. *)
Definition isWhiteSpace (c : ascii) : bool :=
  let n := nat_of_ascii c in
  ((9 <=? n)%nat && (n <=? 13)%nat) || (n =? 32)%nat || (n =? 160)%nat.

Fixpoint trimStart (s : string) : string :=
  match s with
  | String c r => if isWhiteSpace c then trimStart r else s
  | EmptyString => EmptyString
  end.

Fixpoint trimEnd (s : string) : string :=
  match s with
  | String c r =>
      let r' := trimEnd r in
      if isWhiteSpace c && String.eqb r' "" then "" else String c r'
  | EmptyString => EmptyString
  end.

Definition trim (s : string) : string := trimEnd (trimStart s).

(** Truthiness of a string: every string but the empty one. *)
Definition truthy (s : string) : bool := negb (String.eqb s "").

(** [s.includes(t)] *)
Fixpoint includes (s t : string) : bool :=
  String.prefix t s ||
  match s with
  | String _ r => includes r t
  | EmptyString => false
  end.

(** [s.toLowerCase()] on 8-bit code units: the letters A to Z, and the
    accented capitals of Latin-1 (192 to 222, the multiplication sign 215
    apart), move up by 32. *)
Definition toLowerCaseUnit (c : ascii) : ascii :=
  let n := nat_of_ascii c in
  if ((65 <=? n)%nat && (n <=? 90)%nat)
     || ((192 <=? n)%nat && (n <=? 222)%nat && negb (n =? 215)%nat)
  then ascii_of_nat (n + 32) else c.

Fixpoint toLowerCase (s : string) : string :=
  match s with
  | String c r => String (toLowerCaseUnit c) (toLowerCase r)
  | EmptyString => EmptyString
  end.

(** [l.slice(0, n)] for [0 <= n]: the first [n] elements, or all of them. *)
Definition slice0 {A} (n : nat) (l : list A) : list A := firstn n l.

(** [l.join(sep)] *)
Fixpoint join (sep : string) (l : list string) : string :=
  match l with
  | [] => ""
  | [x] => x
  | x :: r => x ++ sep ++ join sep r
  end.

(** ** constants.ts

    The flag glyphs are kept as the bytes of their UTF-8 encoding; nothing
    below inspects them. *)

Definition LANGUAGES : list Language :=
  [ {| code := "en"; name := "English"; flag := "🇬🇧" |};
    {| code := "zh"; name := "Chinese"; flag := "🇨🇳" |};
    {| code := "es"; name := "Spanish"; flag := "🇪🇸" |};
    {| code := "fr"; name := "French"; flag := "🇫🇷" |};
    {| code := "de"; name := "German"; flag := "🇩🇪" |};
    {| code := "ja"; name := "Japanese"; flag := "🇯🇵" |};
    {| code := "ko"; name := "Korean"; flag := "🇰🇷" |};
    {| code := "pt"; name := "Portuguese (European)"; flag := "🇵🇹" |};
    {| code := "ru"; name := "Russian"; flag := "🇷🇺" |};
    {| code := "hi"; name := "Hindi"; flag := "🇮🇳" |} ].

Definition DEFAULT_SETTINGS : AppSettings :=
  {| apiKey := ""; textModel := "gemini-2.5-flash" |}.

(** ** JSON.parse

    The platform's parser, as far as the sources depend on it: whether a
    text is JSON (ECMA-404) and which tree it denotes.  It works on code
    units.  A number keeps its lexeme, since no double is computed here;
    an object keeps its members in source order. *)

Module JSON.

#[local] Set Warnings "-register-all".

Inductive value :=
| Null
| Bool (b : bool)
| Number (lexeme : list N)
| Str (units : list N)
| Arr (elements : list value)
| Obj (members : list (list N * value)).

Definition units (s : string) : list N :=
  map (fun c => N_of_ascii c) (list_ascii_of_string s).

Definition isDigit (c : N) : bool := ((48 <=? c) && (c <=? 57))%N.

Definition hexDigit (c : N) : option N :=
  if isDigit c then Some (c - 48)%N
  else if ((65 <=? c) && (c <=? 70))%N then Some (c - 55)%N
  else if ((97 <=? c) && (c <=? 102))%N then Some (c - 87)%N
  else None.

(** JSON white space: TAB, LF, CR, SP. *)
Fixpoint skip_ws (s : list N) : list N :=
  match s with
  | c :: r =>
      if ((c =? 9) || (c =? 10) || (c =? 13) || (c =? 32))%N
      then skip_ws r else s
  | [] => []
  end.

Fixpoint digits (s : list N) : list N * list N :=
  match s with
  | c :: r => if isDigit c then let (d, r') := digits r in (c :: d, r')
              else ([], s)
  | [] => ([], [])
  end.

(** After the opening quote: the characters up to the closing one. *)
Fixpoint parse_chars (s : list N) : option (list N * list N) :=
  match s with
  | 34%N :: r => Some ([], r)
  | 92%N :: e :: r =>
      let simple (u : N) :=
        match parse_chars r with
        | Some (cs, r') => Some (u :: cs, r')
        | None => None
        end in
      match e with
      | 34%N => simple 34%N | 92%N => simple 92%N | 47%N => simple 47%N
      | 98%N => simple 8%N | 102%N => simple 12%N | 110%N => simple 10%N
      | 114%N => simple 13%N | 116%N => simple 9%N
      | 117%N =>
          match r with
          | h1 :: h2 :: h3 :: h4 :: r4 =>
              match hexDigit h1, hexDigit h2, hexDigit h3, hexDigit h4,
                    parse_chars r4 with
              | Some a, Some b, Some c, Some d, Some (cs, r') =>
                  Some ((((a * 16 + b) * 16 + c) * 16 + d)%N :: cs, r')
              | _, _, _, _, _ => None
              end
          | _ => None
          end
      | _ => None
      end
  | c :: r =>
      if (c <? 32)%N then None
      else match parse_chars r with
           | Some (cs, r') => Some (c :: cs, r')
           | None => None
           end
  | [] => None
  end.

(** An optional minus sign; an integer part without a leading zero
    (unless it is the single digit 0); optionally a dot and digits;
    optionally an exponent: e or E, an optional sign, digits. *)
Definition parse_number (s : list N) : option (list N * list N) :=
  let (sign, s1) := match s with 45%N :: r => ([45%N], r) | _ => ([], s) end in
  let (int, s2) := digits s1 in
  match int with
  | [] => None
  | 48%N :: _ :: _ => None
  | _ =>
      let frac :=
        match s2 with
        | 46%N :: r =>
            let (d, r') := digits r in
            match d with [] => None | _ => Some (46%N :: d, r') end
        | _ => Some ([], s2)
        end in
      match frac with
      | None => None
      | Some (fr, s3) =>
          match s3 with
          | e :: r =>
              if ((e =? 101) || (e =? 69))%N then
                let (sg, r1) :=
                  match r with
                  | c :: r' => if ((c =? 43) || (c =? 45))%N then ([c], r')
                               else ([], r)
                  | [] => ([], r)
                  end in
                let (d, r2) := digits r1 in
                match d with
                | [] => None
                | _ => Some ((sign ++ int ++ fr ++ e :: sg ++ d)%list, r2)
                end
              else Some ((sign ++ int ++ fr)%list, s3)
          | [] => Some ((sign ++ int ++ fr)%list, s3)
          end
      end
  end.

Fixpoint parse_value (fuel : nat) (s : list N) : option (value * list N) :=
  match fuel with
  | O => None
  | S f =>
      match skip_ws s with
      | 110%N :: 117%N :: 108%N :: 108%N :: r => Some (Null, r)
      | 116%N :: 114%N :: 117%N :: 101%N :: r => Some (Bool true, r)
      | 102%N :: 97%N :: 108%N :: 115%N :: 101%N :: r => Some (Bool false, r)
      | 34%N :: r =>
          match parse_chars r with
          | Some (cs, r') => Some (Str cs, r')
          | None => None
          end
      | 91%N :: r =>
          match skip_ws r with
          | 93%N :: r' => Some (Arr [], r')
          | _ => parse_elements f r []
          end
      | 123%N :: r =>
          match skip_ws r with
          | 125%N :: r' => Some (Obj [], r')
          | _ => parse_members f r []
          end
      | s' =>
          match parse_number s' with
          | Some (lx, r) => Some (Number lx, r)
          | None => None
          end
      end
  end
with parse_elements (fuel : nat) (s : list N) (acc : list value)
  : option (value * list N) :=
  match fuel with
  | O => None
  | S f =>
      match parse_value f s with
      | Some (v, r) =>
          match skip_ws r with
          | 44%N :: r' => parse_elements f r' (v :: acc)
          | 93%N :: r' => Some (Arr (rev (v :: acc)), r')
          | _ => None
          end
      | None => None
      end
  end
with parse_members (fuel : nat) (s : list N) (acc : list (list N * value))
  : option (value * list N) :=
  match fuel with
  | O => None
  | S f =>
      match skip_ws s with
      | 34%N :: r =>
          match parse_chars r with
          | Some (k, r1) =>
              match skip_ws r1 with
              | 58%N :: r2 =>
                  match parse_value f r2 with
                  | Some (v, r3) =>
                      match skip_ws r3 with
                      | 44%N :: r' => parse_members f r' ((k, v) :: acc)
                      | 125%N :: r' => Some (Obj (rev ((k, v) :: acc)), r')
                      | _ => None
                      end
                  | None => None
                  end
              | _ => None
              end
          | None => None
          end
      | _ => None
      end
  end.

Definition SyntaxError : JsError :=
  {| message := Some "Unexpected token in JSON" |}.

(** One value, white space around it, nothing else; otherwise
    [SyntaxError] is thrown. *)
Definition parse (text : string) : settled value :=
  let s := units text in
  match parse_value (2 * length s + 2) s with
  | Some (v, r) =>
      match skip_ws r with
      | [] => Fulfilled v
      | _ => Rejected SyntaxError
      end
  | None => Rejected SyntaxError
  end.

(** [JSON.stringify] of a string: the quotes, and inside them every code
    unit as itself, but for the quote, the backslash and the control
    characters, which are escaped. *)
Definition hexChar (n : nat) : ascii :=
  ascii_of_nat (if (n <? 10)%nat then 48 + n else 87 + n).

Definition escapeUnit (c : ascii) : string :=
  let n := nat_of_ascii c in
  let bs := String (ascii_of_nat 92) "" in
  if (n =? 34)%nat then bs ++ String (ascii_of_nat 34) ""
  else if (n =? 92)%nat then bs ++ bs
  else if (n =? 8)%nat then bs ++ "b"
  else if (n =? 9)%nat then bs ++ "t"
  else if (n =? 10)%nat then bs ++ "n"
  else if (n =? 12)%nat then bs ++ "f"
  else if (n =? 13)%nat then bs ++ "r"
  else if (n <? 32)%nat then
    bs ++ "u00" ++ String (hexChar (n / 16)) (String (hexChar (n mod 16)) "")
  else String c "".

Fixpoint escape (s : string) : string :=
  match s with
  | String c r => escapeUnit c ++ escape r
  | EmptyString => EmptyString
  end.

Definition quote (s : string) : string :=
  String (ascii_of_nat 34) "" ++ escape s ++ String (ascii_of_nat 34) "".

End JSON.
(** An [async] function that awaits at most one external call: it
    returns without calling, or issues [req] and goes on with [k] once the
    call has settled. *)
Inductive awaits (Req Resp A : Type) :=
| Return (a : A)
| Call (req : Req) (k : settled Resp -> A).
Arguments Return {Req Resp A} a.
Arguments Call {Req Resp A} req k.

(** The request that is issued, if any. *)
Definition issued {Req Resp A} (c : awaits Req Resp A) : option Req :=
  match c with
  | Return _ => None
  | Call req _ => Some req
  end.

(** The end of the computation when the call settles as [resp]. *)
Definition resume {Req Resp A} (c : awaits Req Resp A) (resp : settled Resp) : A :=
  match c with
  | Return a => a
  | Call _ k => k resp
  end.

(** The double quote inside a template literal. *)
Definition dq : string := String (ascii_of_nat 34) "".

Definition nl : string := String (ascii_of_nat 10) "".

(** ** services/geminiService.ts

    The external service is not part of the model: where a wrapper awaits
    it, the outcome of the call is an argument.  [ai] is the outcome of
    [getClient()], that is of the SDK's constructor applied to
    [process.env.API_KEY]; the key does not change while the page lives,
    so all the calls of one lookup see the same outcome. *)

Module geminiService.

Record InlineData := { data : string }.

(** A part of a response; only [inlineData] is looked at. *)
Record Part := { inlineData : option InlineData }.

(** [lookupWord]: [response] is what the request and the [JSON.parse] of
    its text come to, at the declared type of the result. *)
Definition lookupWord (ai : settled unit) (response : settled TextData)
  : settled TextData :=
  match ai with
  | Rejected e => Rejected e
  | Fulfilled _ => response
  end.

(** The request of [lookupWord]: the model and the prompt (the response
    schema is left out).  Code units above 127 are written by number. *)
Definition isPortuguese (targetLang : string) : bool :=
  includes (toLowerCase targetLang) "portuguese".

Definition europeanPortuguese : string :=
  "The target language is strictly **European Portuguese (Portugu"
  ++ String (ascii_of_nat 234) ""
  ++ "s de Portugal/pt-PT)**. Do NOT use Brazilian Portuguese terms or grammar. Use 'tu' for the second person singular informal. Use 'estou a fazer' construction instead of gerund 'estou fazendo'. Use 'autocarro', 'comboio', 'ecr"
  ++ String (ascii_of_nat 227) ""
  ++ "' instead of '"
  ++ String (ascii_of_nat 244) ""
  ++ "nibus', 'trem', 'tela'.".

Definition langInstruction (targetLang : string) : string :=
  if isPortuguese targetLang then europeanPortuguese
  else "The target language is " ++ dq ++ targetLang ++ dq ++ ".".

Definition lookupWord_prompt (text sourceLang targetLang : string) : string :=
  nl ++
  "    Analyze the text " ++ dq ++ text ++ dq ++ ". " ++ nl ++
  "    The user's native language is " ++ dq ++ sourceLang ++ dq ++ "." ++ nl ++
  "    " ++ langInstruction targetLang ++ nl ++
  "    " ++ nl ++
  "    Provide:" ++ nl ++
  "    1. A natural language explanation in " ++ sourceLang ++ "." ++ nl ++
  "    2. Two example sentences in the target language with their "
    ++ sourceLang ++ " translations." ++ nl ++
  "    3. A " ++ dq ++ "friendly note" ++ dq ++ " in " ++ sourceLang
    ++ ". This should be casual, like a friend chatting. Mention cultural context, nuance, slang, or how it differs from similar words. Keep it concise and fun. Avoid textbook dry language."
    ++ nl ++
  "    4. **IF AND ONLY IF** the word is a verb in the target language, provide the **Infinitive** form and the **Present Tense (Indicative)** conjugation for standard persons (e.g., Eu, Tu, Ele/Ela/Voc"
    ++ String (ascii_of_nat 234) ""
    ++ ", N" ++ String (ascii_of_nat 243) ""
    ++ "s, Eles/Elas). If it is not a verb, leave the conjugation field null."
    ++ nl ++
  "  ".

(** The [for] loop over
    [response.candidates?.[0]?.content?.parts || []]. *)
Fixpoint firstInlineData (parts : list Part) : option string :=
  match parts with
  | part :: rest =>
      match inlineData part with
      | Some d => Some ("data:image/png;base64," ++ data d)
      | None => firstInlineData rest
      end
  | [] => None
  end.

(** [generateConceptImage]: [getClient()] is called before the [try];
    whatever the request throws is caught and [undefined] is returned. *)
Definition generateConceptImage (ai : settled unit)
    (response : settled (list Part)) : settled (option string) :=
  match ai with
  | Rejected e => Rejected e
  | Fulfilled _ =>
      match response with
      | Fulfilled parts => Fulfilled (firstInlineData parts)
      | Rejected _ => Fulfilled None
      end
  end.

(** [generateSpeech]: the data of the first part of the first candidate,
    [null] when it is missing or empty, or when the request throws. *)
Definition generateSpeech (ai : settled unit) (response : settled (list Part))
  : settled (option string) :=
  match ai with
  | Rejected e => Rejected e
  | Fulfilled _ =>
      match response with
      | Fulfilled (part :: _) =>
          match inlineData part with
          | Some d => Fulfilled (if truthy (data d) then Some (data d) else None)
          | None => Fulfilled None
          end
      | Fulfilled [] => Fulfilled None
      | Rejected _ => Fulfilled None
      end
  end.

(** What [generateContent] is called with. *)
Record GenerateContentRequest := { gc_model : string; gc_contents : string }.

Definition weaveStory_words (items : list SavedItem) : string :=
  join ", " (map (fun i : SavedItem => word i) items).

Definition weaveStory_request (items : list SavedItem) (nativeLang : string)
  : GenerateContentRequest :=
  {| gc_model := "gemini-2.5-flash";
     gc_contents :=
       nl ++
       "    Write a short, funny, and coherent story (max 150 words) that incorporates the following words: "
         ++ weaveStory_words items ++ "." ++ nl ++
       "    The story should be written in the target language of the words, but provide a full translation in "
         ++ nativeLang ++ " at the end." ++ nl ++
       "    Highlight the keywords in the story if possible." ++ nl ++
       "  " |}.

(** [weaveStory]: the call of [generateContent] and, once it settles
    with the text of the response (if any), the story. *)
Definition weaveStory (ai : settled unit) (items : list SavedItem)
    (nativeLang : string)
  : awaits GenerateContentRequest (option string) (settled string) :=
  match ai with
  | Rejected e => Return (Rejected e)
  | Fulfilled _ =>
      Call (weaveStory_request items nativeLang)
        (fun response =>
           match response with
           | Fulfilled (Some t) =>
               Fulfilled (if truthy t then t else "Could not generate story.")
           | Fulfilled None => Fulfilled "Could not generate story."
           | Rejected e => Rejected e
           end)
  end.

(** What the chat collaborator receives: the history the chat is created
    with, and the message sent in it. *)
Record ChatRequest := { chat_history : list ChatMessage; chat_message : string }.

(** The history of [getChatResponse]: the two priming turns, then the
    transcript it was given. *)
Definition getChatResponse_history (history : list ChatMessage)
    (currentContext : DictionaryResult) (targetLang nativeLang : string)
  : list ChatMessage :=
  {| role := user;
     text := "System: You are a helpful language tutor. We are discussing the word/phrase "
             ++ dq ++ word currentContext ++ dq ++ " (Target: " ++ targetLang
             ++ ", Native: " ++ nativeLang ++ "). The definition provided was: "
             ++ dq ++ explanation currentContext ++ dq
             ++ ". Keep answers brief and helpful." |}
  :: {| role := model;
        text := "Understood! I'm ready to help you explore this word further." |}
  :: map (fun h => {| role := role h; text := text h |}) history.

(** [getChatResponse]: the reply is the text of the response. *)
Definition getChatResponse (ai : settled unit) (history : list ChatMessage)
    (newMessage : string) (currentContext : DictionaryResult)
    (targetLang nativeLang : string)
  : awaits ChatRequest string (settled string) :=
  match ai with
  | Rejected e => Return (Rejected e)
  | Fulfilled _ =>
      Call {| chat_history :=
                getChatResponse_history history currentContext targetLang
                  nativeLang;
              chat_message := newMessage |}
        (fun response => response)
  end.

End geminiService.

(** ** services/audioService.ts *)

Module audioService.

(** [atob], the forgiving base64 decoding of the platform: ASCII white
    space is dropped, then one or two closing equals signs if the length
    is a multiple of four; a length of one more than a multiple of four,
    or a character outside the alphabet, is an [InvalidCharacterError].
    The result is the binary string, as its code units. *)
Definition base64Value (c : N) : option N :=
  if ((65 <=? c) && (c <=? 90))%N then Some (c - 65)%N
  else if ((97 <=? c) && (c <=? 122))%N then Some (c - 71)%N
  else if ((48 <=? c) && (c <=? 57))%N then Some (c + 4)%N
  else if (c =? 43)%N then Some 62%N
  else if (c =? 47)%N then Some 63%N
  else None.

Fixpoint base64Values (cs : list N) : option (list N) :=
  match cs with
  | c :: r =>
      match base64Value c, base64Values r with
      | Some v, Some vs => Some (v :: vs)
      | _, _ => None
      end
  | [] => Some []
  end.

Fixpoint decodeGroups (v : list N) : list N :=
  match v with
  | a :: b :: c :: d :: r =>
      let n := (((a * 64 + b) * 64 + c) * 64 + d)%N in
      (n / 65536)%N :: ((n / 256) mod 256)%N :: (n mod 256)%N :: decodeGroups r
  | [a; b; c] =>
      let n := (((a * 64 + b) * 64 + c) / 4)%N in
      [(n / 256)%N; (n mod 256)%N]
  | [a; b] => [((a * 64 + b) / 16)%N]
  | _ => []
  end.

Definition isAsciiWhitespace (c : N) : bool :=
  ((c =? 9) || (c =? 10) || (c =? 12) || (c =? 13) || (c =? 32))%N.

Definition stripPadding (cs : list N) : list N :=
  if (length cs mod 4 =? 0)%nat then
    match rev cs with
    | 61%N :: 61%N :: r => rev r
    | 61%N :: r => rev r
    | _ => cs
    end
  else cs.

Definition InvalidCharacterError : JsError :=
  {| message := Some "The string to be decoded is not correctly encoded." |}.

Definition atob (s : string) : settled (list N) :=
  let cs :=
    stripPadding
      (List.filter (fun c => negb (isAsciiWhitespace c)) (JSON.units s)) in
  if (length cs mod 4 =? 1)%nat then Rejected InvalidCharacterError
  else match base64Values cs with
       | Some v => Fulfilled (decodeGroups v)
       | None => Rejected InvalidCharacterError
       end.

(** [decodeBase64]: the code units of the binary string, stored one by
    one into a [Uint8Array]. *)
Definition decodeBase64 (base64 : string) : settled (list N) :=
  match atob base64 with
  | Fulfilled binaryString =>
      Fulfilled (map (fun c => (c mod 256)%N) binaryString)
  | Rejected e => Rejected e
  end.

(** The elements of [new Int16Array(buffer, byteOffset, byteLength / 2)]:
    the bytes two by two, low byte first (the byte order of the platforms
    the code runs on), as signed 16-bit integers; a last byte without its
    pair is left out. *)
Definition int16 (lo hi : N) : Z :=
  let u := (Z.of_N lo + 256 * Z.of_N hi)%Z in
  if (u <? 32768)%Z then u else (u - 65536)%Z.

Fixpoint int16Array (bytes : list N) : list Z :=
  match bytes with
  | lo :: hi :: r => int16 lo hi :: int16Array r
  | _ => []
  end.

(** An [AudioBuffer] with its one channel.  A sample is the quotient of a
    16-bit integer by 32768, which a [Float32Array] holds exactly; it is
    kept as that fraction. *)
Record AudioBuffer := {
  numberOfChannels : nat;
  sampleRate : Z;
  channelData : list QArith_base.Q
}.

(** What the code asks of the [AudioContext] it got: whether its state is
    [suspended], and the outcomes of [resume()], of [createBuffer] and of
    creating, connecting and starting the source. *)
Record AudioContext := {
  suspended : bool;
  resume : settled unit;
  createBuffer : nat -> nat -> Z -> settled unit;
  start : AudioBuffer -> settled unit
}.

Definition pcmToAudioBuffer (pcmData : list N) (ctx : AudioContext)
    (rate : Z) : settled AudioBuffer :=
  let int16s := int16Array pcmData in
  let frameCount := length int16s in
  match createBuffer ctx 1 frameCount rate with
  | Fulfilled _ =>
      Fulfilled {| numberOfChannels := 1;
                   sampleRate := rate;
                   channelData :=
                     map (fun v => QArith_base.Qmake v 32768) int16s |}
  | Rejected e => Rejected e
  end.

(** The [try] block of [playAudioData]; [ctx] is what [getAudioContext()]
    comes to.  The value is the buffer that was started. *)
Definition playAudioData_try (ctx : settled AudioContext) (base64Audio : string)
  : settled AudioBuffer :=
  match ctx with
  | Rejected e => Rejected e
  | Fulfilled ctx =>
      match (if suspended ctx then resume ctx else Fulfilled tt) with
      | Rejected e => Rejected e
      | Fulfilled _ =>
          match decodeBase64 base64Audio with
          | Rejected e => Rejected e
          | Fulfilled rawBytes =>
              match pcmToAudioBuffer rawBytes ctx 24000 with
              | Rejected e => Rejected e
              | Fulfilled audioBuffer =>
                  match start ctx audioBuffer with
                  | Rejected e => Rejected e
                  | Fulfilled _ => Fulfilled audioBuffer
                  end
              end
          end
      end
  end.

(** [playAudioData]: whatever the block throws is caught and logged; the
    value tells what was started, if anything. *)
Definition playAudioData (ctx : settled AudioContext) (base64Audio : string)
  : settled (option AudioBuffer) :=
  match playAudioData_try ctx base64Audio with
  | Fulfilled audioBuffer => Fulfilled (Some audioBuffer)
  | Rejected _ => Fulfilled None
  end.

End audioService.

(** ** App.tsx *)

(** The object literal [handleSearch] hands to [setCurrentResult]:
    the spread of [textData], then the four properties written after it. *)
Definition mergeResult (textData : TextData) (image : option string)
    (now : Z) (reqNative reqTarget : string) : DictionaryResult :=
  {| word := td_word textData;
     explanation := td_explanation textData;
     examples := td_examples textData;
     friendlyNote := td_friendlyNote textData;
     conjugations := td_conjugations textData;
     imageUrl := image;
     timestamp := now;
     sourceLang := reqNative;
     targetLang := reqTarget |}.

(** [Promise.all] of two promises: both values, or the rejection. *)
Definition Promise_all {A B} (p : settled A) (q : settled B) : settled (A * B) :=
  match p, q with
  | Fulfilled a, Fulfilled b => Fulfilled (a, b)
  | Rejected e, _ => Rejected e
  | _, Rejected e => Rejected e
  end.

(** What an initializer puts into a state cell: a value of the declared
    type written in the source, or whatever [JSON.parse] returned, which
    the code takes for one without looking. *)
Inductive loaded (A : Type) :=
| Literal (a : A)
| Parsed (v : JSON.value).
Arguments Literal {A} a.
Arguments Parsed {A} v.

Module App.

(** The state cells of the component, and [alerts], the messages shown by
    [alert] so far (latest first).  [showSettings] belongs to the revision
    with the settings dialog. *)
Record AppState := {
  hasStarted : bool;
  nativeLang : Language;
  targetLang : Language;
  mode : AppMode;
  query : string;
  loading : bool;
  currentResult : option DictionaryResult;
  showSettings : bool;
  savedItems : list SavedItem;
  alerts : list string
}.

Definition setHasStarted (b : bool) (st : AppState) : AppState :=
  {| hasStarted := b; nativeLang := nativeLang st; targetLang := targetLang st;
     mode := mode st; query := query st; loading := loading st;
     currentResult := currentResult st; showSettings := showSettings st;
     savedItems := savedItems st; alerts := alerts st |}.

Definition setNativeLang (l : Language) (st : AppState) : AppState :=
  {| hasStarted := hasStarted st; nativeLang := l; targetLang := targetLang st;
     mode := mode st; query := query st; loading := loading st;
     currentResult := currentResult st; showSettings := showSettings st;
     savedItems := savedItems st; alerts := alerts st |}.

Definition setTargetLang (l : Language) (st : AppState) : AppState :=
  {| hasStarted := hasStarted st; nativeLang := nativeLang st; targetLang := l;
     mode := mode st; query := query st; loading := loading st;
     currentResult := currentResult st; showSettings := showSettings st;
     savedItems := savedItems st; alerts := alerts st |}.

Definition setMode (m : AppMode) (st : AppState) : AppState :=
  {| hasStarted := hasStarted st; nativeLang := nativeLang st;
     targetLang := targetLang st; mode := m; query := query st;
     loading := loading st; currentResult := currentResult st;
     showSettings := showSettings st; savedItems := savedItems st;
     alerts := alerts st |}.

Definition setQuery (q : string) (st : AppState) : AppState :=
  {| hasStarted := hasStarted st; nativeLang := nativeLang st;
     targetLang := targetLang st; mode := mode st; query := q;
     loading := loading st; currentResult := currentResult st;
     showSettings := showSettings st; savedItems := savedItems st;
     alerts := alerts st |}.

Definition setLoading (b : bool) (st : AppState) : AppState :=
  {| hasStarted := hasStarted st; nativeLang := nativeLang st;
     targetLang := targetLang st; mode := mode st; query := query st;
     loading := b; currentResult := currentResult st;
     showSettings := showSettings st; savedItems := savedItems st;
     alerts := alerts st |}.

Definition setCurrentResult (r : option DictionaryResult) (st : AppState)
  : AppState :=
  {| hasStarted := hasStarted st; nativeLang := nativeLang st;
     targetLang := targetLang st; mode := mode st; query := query st;
     loading := loading st; currentResult := r;
     showSettings := showSettings st; savedItems := savedItems st;
     alerts := alerts st |}.

Definition setShowSettings (b : bool) (st : AppState) : AppState :=
  {| hasStarted := hasStarted st; nativeLang := nativeLang st;
     targetLang := targetLang st; mode := mode st; query := query st;
     loading := loading st; currentResult := currentResult st;
     showSettings := b; savedItems := savedItems st; alerts := alerts st |}.

Definition setSavedItems (f : list SavedItem -> list SavedItem) (st : AppState)
  : AppState :=
  {| hasStarted := hasStarted st; nativeLang := nativeLang st;
     targetLang := targetLang st; mode := mode st; query := query st;
     loading := loading st; currentResult := currentResult st;
     showSettings := showSettings st; savedItems := f (savedItems st);
     alerts := alerts st |}.

Definition alert (msg : string) (st : AppState) : AppState :=
  {| hasStarted := hasStarted st; nativeLang := nativeLang st;
     targetLang := targetLang st; mode := mode st; query := query st;
     loading := loading st; currentResult := currentResult st;
     showSettings := showSettings st; savedItems := savedItems st;
     alerts := msg :: alerts st |}.

(** *** The persisted cells

    [localStorage] maps keys to strings; [getItem] of a missing key is
    [null], which like the empty string is falsy. *)

Definition savedItems_init (localStorage : gmap string string)
  : settled (loaded (list SavedItem)) :=
  match localStorage !! "lingopop_saved" with
  | Some saved =>
      if truthy saved then
        match JSON.parse saved with
        | Fulfilled v => Fulfilled (Parsed v)
        | Rejected e => Rejected e
        end
      else Fulfilled (Literal [])
  | None => Fulfilled (Literal [])
  end.

Definition settings_init (localStorage : gmap string string)
  : settled (loaded AppSettings) :=
  match localStorage !! "lingopop_settings" with
  | Some saved =>
      if truthy saved then
        match JSON.parse saved with
        | Fulfilled v => Fulfilled (Parsed v)
        | Rejected e => Rejected e
        end
      else Fulfilled (Literal DEFAULT_SETTINGS)
  | None => Fulfilled (Literal DEFAULT_SETTINGS)
  end.

(** The first render, given the notebook that was loaded. *)
Definition initialState (saved : list SavedItem) : AppState :=
  {| hasStarted := false;
     nativeLang := nth 0 LANGUAGES {| code := ""; name := ""; flag := "" |};
     targetLang := nth 2 LANGUAGES {| code := ""; name := ""; flag := "" |};
     mode := SEARCH; query := ""; loading := false; currentResult := None;
     showSettings := false; savedItems := saved; alerts := [] |}.

(** *** The notebook *)

Definition saveItem (uuid : string) (item : DictionaryResult) (st : AppState)
  : AppState :=
  if existsb (fun i : SavedItem => String.eqb (word i) (word item))
       (savedItems st)
  then st
  else
    let newItem := {| dict := item; id := uuid |} in
    setSavedItems (fun prev => newItem :: prev) st.

Definition deleteItem (x : string) (st : AppState) : AppState :=
  setSavedItems
    (fun prev => List.filter (fun i => negb (String.eqb (id i) x)) prev) st.

Definition reviewItem (item : SavedItem) (st : AppState) : AppState :=
  setMode SEARCH (setCurrentResult (Some (dict item)) st).

(** *** The lookup *)

(** The two revisions of the file differ in the [catch] of
    [handleSearch]. *)
Inductive Revision := Plain | WithSettings.

Definition oops : string := "Oops! The AI got a bit confused. Try again?".

Definition apiKeyError : string := "API Key Error: Please check your settings.".

Definition handleSearch_catch (rev : Revision) (error : JsError)
    (st : AppState) : AppState :=
  match rev with
  | Plain => alert oops st
  | WithSettings =>
      if match message error with
         | Some m => includes m "API Key"
         | None => false
         end
      then alert apiKeyError (setShowSettings true st)
      else alert oops st
  end.

(** What a running [handleSearch] holds across its [await]: the query it
    sent and the two names it read when it started. *)
Record Request := { reqQuery : string; reqNative : string; reqTarget : string }.

(** [handleSearch] up to the [await]: nothing happens on a blank query;
    otherwise the three state updates, and the two calls are issued with
    the values of this render. *)
Definition handleSearch_begin (st : AppState) : option (AppState * Request) :=
  if negb (truthy (trim (query st))) then None
  else
    Some (setCurrentResult None (setMode SEARCH (setLoading true st)),
          {| reqQuery := query st;
             reqNative := name (nativeLang st);
             reqTarget := name (targetLang st) |}).

(** [handleSearch] from the [await] on, in the state [st] of that moment:
    [textPromise] and [imagePromise] have settled, [now] is [Date.now()]. *)
Definition handleSearch_settle (rev : Revision) (req : Request)
    (textPromise : settled TextData) (imagePromise : settled (option string))
    (now : Z) (st : AppState) : AppState :=
  setLoading false
    match Promise_all textPromise imagePromise with
    | Fulfilled (textData, image) =>
        setCurrentResult
          (Some (mergeResult textData image now (reqNative req) (reqTarget req)))
          st
    | Rejected error => handleSearch_catch rev error st
    end.

(** *** The result card, as rendered

    The props the component passes to [ResultCard]; the card is rendered
    once the welcome screen is left, in search mode, when there is a
    current result and no lookup is loading. *)
Record ResultCardProps := {
  result : DictionaryResult;
  isSaved : bool;
  nativeLangName : string;
  targetLangName : string
}.

Definition resultCard (st : AppState) : option ResultCardProps :=
  if hasStarted st then
    match mode st, currentResult st with
    | SEARCH, Some r =>
        if negb (loading st) then
          Some {| result := r;
                  isSaved :=
                    existsb (fun i : SavedItem => String.eqb (word i) (word r))
                      (savedItems st);
                  nativeLangName :=
                    if truthy (sourceLang r) then sourceLang r
                    else name (nativeLang st);
                  targetLangName :=
                    if truthy (types.targetLang r) then types.targetLang r
                    else name (targetLang st) |}
        else None
    | _, _ => None
    end
  else None.

(** *** The settings (revision with the settings dialog)

    [JSON.stringify] of a settings object of the declared type, its two
    properties in the order of [DEFAULT_SETTINGS], which the spreads of
    the dialog keep. *)
Definition stringifySettings (settings : AppSettings) : string :=
  "{" ++ JSON.quote "apiKey" ++ ":" ++ JSON.quote (apiKey settings) ++ ","
  ++ JSON.quote "textModel" ++ ":" ++ JSON.quote (textModel settings) ++ "}".

(** [saveSettings], for the settings cell [settings]: the new content of
    [localStorage] and the new state. *)
Definition saveSettings (settings : AppSettings)
    (localStorage : gmap string string) (st : AppState)
  : gmap string string * AppState :=
  (<["lingopop_settings" := stringifySettings settings]> localStorage,
   alert "Settings saved!" (setShowSettings false st)).

(** *** Runs of the component

    What can happen to the mounted component: the handlers of the file,
    and the settling of a lookup that is in flight. *)

Definition onChangeNative (value : string) (st : AppState) : AppState :=
  setNativeLang
    (default (nth 0 LANGUAGES {| code := ""; name := ""; flag := "" |})
       (List.find (fun l => String.eqb (code l) value) LANGUAGES)) st.

Definition onChangeTarget (value : string) (st : AppState) : AppState :=
  setTargetLang
    (default (nth 1 LANGUAGES {| code := ""; name := ""; flag := "" |})
       (List.find (fun l => String.eqb (code l) value) LANGUAGES)) st.

Definition onClickLogo (st : AppState) : AppState :=
  setCurrentResult None (setMode SEARCH st).

Inductive Event :=
| Started
| NativeLangSet (l : Language)
| TargetLangSet (l : Language)
| NativeChanged (value : string)
| TargetChanged (value : string)
| QueryTyped (q : string)
| LogoClicked
| ModeOpened (m : AppMode)
| SettingsOpened
| Saved (uuid : string) (item : DictionaryResult)
| Deleted (x : string)
| Reviewed (item : SavedItem)
| Submitted
| Settled (k : nat) (ai : settled unit) (definition : settled TextData)
    (illustration : settled (list geminiService.Part)) (now : Z).

(** The component together with the lookups awaiting their promises,
    oldest first. *)
Record Sys := { ui : AppState; inflight : list Request }.

Definition step (rev : Revision) (s : Sys) (e : Event) : Sys :=
  let on f := {| ui := f (ui s); inflight := inflight s |} in
  match e with
  | Started => on (setHasStarted true)
  | NativeLangSet l => on (setNativeLang l)
  | TargetLangSet l => on (setTargetLang l)
  | NativeChanged v => on (onChangeNative v)
  | TargetChanged v => on (onChangeTarget v)
  | QueryTyped q => on (setQuery q)
  | LogoClicked => on onClickLogo
  | ModeOpened m => on (setMode m)
  | SettingsOpened => on (setShowSettings true)
  | Saved uuid item => on (saveItem uuid item)
  | Deleted x => on (deleteItem x)
  | Reviewed item => on (reviewItem item)
  | Submitted =>
      match handleSearch_begin (ui s) with
      | Some (st, req) => {| ui := st; inflight := (inflight s ++ [req])%list |}
      | None => s
      end
  | Settled k ai definition illustration now =>
      match inflight s !! k with
      | Some req =>
          {| ui := handleSearch_settle rev req
                     (geminiService.lookupWord ai definition)
                     (geminiService.generateConceptImage ai illustration)
                     now (ui s);
             inflight := delete k (inflight s) |}
      | None => s
      end
  end.

Definition run (rev : Revision) (s : Sys) (events : list Event) : Sys :=
  fold_left (step rev) events s.

(** The submit button of the search form carries [disabled={loading}]:
    while a lookup is loading the form cannot be submitted. *)
Definition enabled (st : AppState) (e : Event) : bool :=
  match e with
  | Submitted => negb (loading st)
  | _ => true
  end.

Definition step_ui (rev : Revision) (s : Sys) (e : Event) : Sys :=
  if enabled (ui s) e then step rev s e else s.

Definition run_ui (rev : Revision) (s : Sys) (events : list Event) : Sys :=
  fold_left (step_ui rev) events s.

Definition mounted (saved : list SavedItem) : Sys :=
  {| ui := initialState saved; inflight := [] |}.

End App.

(** ** components/NotebookView.tsx *)

Module NotebookView.

Record State := { story : option string; loadingStory : bool }.

Definition setStory (s : option string) (st : State) : State :=
  {| story := s; loadingStory := loadingStory st |}.

Definition setLoadingStory (b : bool) (st : State) : State :=
  {| story := story st; loadingStory := b |}.

(** [handleWeaveStory], for the props [items] and [nativeLangName]: the
    state update made at once, and what the handler awaits; the
    continuation is the rest of the [try], the [catch] and the [finally]. *)
Definition handleWeaveStory (ai : settled unit) (items : list SavedItem)
    (nativeLangName : string)
  : (State -> State) *
    awaits geminiService.GenerateContentRequest (option string) (State -> State) :=
  if (length items <? 2)%nat then (fun st => st, Return (fun st => st))
  else
    let finish (generated : settled string) (st : State) :=
      setLoadingStory false
        match generated with
        | Fulfilled g => setStory (Some g) st
        | Rejected _ => st
        end in
    (setLoadingStory true,
     match geminiService.weaveStory ai (slice0 10 items) nativeLangName with
     | Return r => Return (finish r)
     | Call req k => Call req (fun response => finish (k response))
     end).

End NotebookView.

(** ** components/ResultCard.tsx *)

Module ResultCard.

Record State := {
  chatOpen : bool;
  chatHistory : list ChatMessage;
  chatInput : string;
  chatLoading : bool
}.

Definition setChatHistory (f : list ChatMessage -> list ChatMessage)
    (st : State) : State :=
  {| chatOpen := chatOpen st; chatHistory := f (chatHistory st);
     chatInput := chatInput st; chatLoading := chatLoading st |}.

Definition setChatInput (s : string) (st : State) : State :=
  {| chatOpen := chatOpen st; chatHistory := chatHistory st;
     chatInput := s; chatLoading := chatLoading st |}.

Definition setChatLoading (b : bool) (st : State) : State :=
  {| chatOpen := chatOpen st; chatHistory := chatHistory st;
     chatInput := chatInput st; chatLoading := b |}.

Definition initialState : State :=
  {| chatOpen := false; chatHistory := []; chatInput := "";
     chatLoading := false |}.

(** [handleChatSubmit] in the render whose state is [st], for the props
    [result], [nativeLangName] and [targetLangName]: the updates made at
    once, and what the handler awaits.  [getChatResponse] is given the
    transcript of this render, which does not hold [userMsg] yet. *)
Definition handleChatSubmit (ai : settled unit) (result : DictionaryResult)
    (nativeLangName targetLangName : string) (st : State)
  : (State -> State) *
    awaits geminiService.ChatRequest string (State -> State) :=
  if negb (truthy (trim (chatInput st))) then
    (fun s => s, Return (fun s => s))
  else
    let userMsg := {| role := user; text := chatInput st |} in
    let finish (responseText : settled string) (s : State) :=
      setChatLoading false
        match responseText with
        | Fulfilled t =>
            setChatHistory
              (fun prev => (prev ++ [{| role := model; text := t |}])%list) s
        | Rejected _ => s
        end in
    (fun s =>
       setChatLoading true
         (setChatInput ""
            (setChatHistory (fun prev => (prev ++ [userMsg])%list) s)),
     match geminiService.getChatResponse ai (chatHistory st) (text userMsg)
             result targetLangName nativeLangName with
     | Return r => Return (finish r)
     | Call req k => Call req (fun response => finish (k response))
     end).

(** [handlePlayAudio], on the cell [isPlaying] (the only one it touches):
    the update made at once and what the handler awaits, a speech request
    for [text]; the continuation gives the cell at the end and the buffer
    that was started, if any.  [ctx] is what [getAudioContext()] comes to
    should the audio be played. *)
Definition handlePlayAudio (ai : settled unit)
    (ctx : settled audioService.AudioContext) (text id : string)
    (isPlaying : option string)
  : (option string -> option string) *
    awaits string (list geminiService.Part)
      (option string -> option string * option audioService.AudioBuffer) :=
  if match isPlaying with Some p => truthy p | None => false end then
    (fun cell => cell, Return (fun cell => (cell, None)))
  else
    let finish (base64 : settled (option string)) (cell : option string) :=
      (@None string,
       match base64 with
       | Fulfilled (Some b) =>
           if truthy b then
             match audioService.playAudioData ctx b with
             | Fulfilled started => started
             | Rejected _ => None
             end
           else None
       | _ => None
       end) in
    (fun _ => Some id,
     match ai with
     | Rejected e => Return (finish (Rejected e))
     | Fulfilled _ =>
         Call text
           (fun response => finish (geminiService.generateSpeech ai response))
     end).

(** One use of the form: [input] is typed and submitted, and the handler
    runs to its end, the collaborator (if asked) answering [response]. *)
Definition send (ai : settled unit) (result : DictionaryResult)
    (nativeLangName targetLangName : string)
    (input : string) (response : settled string) (st : State) : State :=
  let st1 := setChatInput input st in
  let h := handleChatSubmit ai result nativeLangName targetLangName st1 in
  resume (snd h) response (fst h st1).

End ResultCard.

(** ** Notions used in the statements *)

(** The headwords and the ids of a notebook, in its order. *)
Definition words (nb : list SavedItem) : list string :=
  map (fun i : SavedItem => word i) nb.

Definition ids (nb : list SavedItem) : list string := map id nb.

(** How many entries of the notebook have the headword [w]. *)
Definition countWord (w : string) (nb : list SavedItem) : nat :=
  length (List.filter (fun i : SavedItem => String.eqb (word i) w) nb).

(** The invariant of the notebook: one entry per headword at most. *)
Definition uniqueWords (nb : list SavedItem) : Prop := NoDup (words nb).

(** The illustration collaborator fails: the request throws (or times
    out), or the response carries no image. *)
Definition illustrationFailed
    (illustration : settled (list geminiService.Part)) : Prop :=
  match illustration with
  | Rejected _ => True
  | Fulfilled parts => Forall (fun p => geminiService.inlineData p = None) parts
  end.

(** At most one lookup is in flight, and then the form is loading. *)
Definition oneInFlight (s : App.Sys) : Prop :=
  match App.inflight s with
  | [] => True
  | [_] => App.loading (App.ui s) = true
  | _ => False
  end.

(** The lookup in flight, if any, is the one the spinner stands for. *)
Definition spinnerMatches (s : App.Sys) : Prop :=
  match App.inflight s with
  | [] => App.loading (App.ui s) = false
  | [_] => App.loading (App.ui s) = true
  | _ => False
  end.

(** Every code unit of the string is white space. *)
Fixpoint allWhiteSpace (s : string) : bool :=
  match s with
  | String c r => isWhiteSpace c && allWhiteSpace r
  | EmptyString => true
  end.

(** Each save of the run draws an id that no entry has at that moment. *)
Fixpoint freshUuids (rev : App.Revision) (s : App.Sys)
    (events : list App.Event) : Prop :=
  match events with
  | e :: rest =>
      match e with
      | App.Saved uuid _ => ~ In uuid (ids (App.savedItems (App.ui s)))
      | _ => True
      end
      /\ freshUuids rev (App.step rev s e) rest
  | [] => True
  end.

(** The tree [JSON.parse] gives for the text of a settings object. *)
Definition settingsValue (settings : AppSettings) : JSON.value :=
  JSON.Obj
    [ (JSON.units "apiKey", JSON.Str (JSON.units (apiKey settings)));
      (JSON.units "textModel", JSON.Str (JSON.units (textModel settings))) ].

(** A sample lies in the range of the audio API, from -1 up to 1. *)
Definition inSampleRange (q : QArith_base.Q) : Prop :=
  QArith_base.Qle (QArith_base.Qmake (-1) 1) q
  /\ QArith_base.Qlt q (QArith_base.Qmake 1 1).

(** One use of the chat form: what is typed, what [getClient()] comes
    to, and how the collaborator answers if it is asked. *)
Record Send := { input : string; client : settled unit; reply : settled string }.

(** A blank input is not sent at all. *)
Definition blank (s : Send) : bool := negb (truthy (trim (input s))).

Definition succeeds (s : Send) : bool :=
  negb (blank s) &&
  match client s, reply s with
  | Fulfilled _, Fulfilled _ => true
  | _, _ => false
  end.

Definition fails (s : Send) : bool := negb (blank s) && negb (succeeds s).

Definition sendOnce (result : DictionaryResult)
    (nativeLangName targetLangName : string) (s : Send)
    (st : ResultCard.State) : ResultCard.State :=
  ResultCard.send (client s) result nativeLangName targetLangName
    (input s) (reply s) st.

(** A chat session: the sends one after the other, each run to its end
    before the next (the button is disabled while one is loading). *)
Definition session (result : DictionaryResult)
    (nativeLangName targetLangName : string) (sends : list Send)
    (st : ResultCard.State) : ResultCard.State :=
  fold_left
    (fun st s => sendOnce result nativeLangName targetLangName s st) sends st.

(** *** Sample data for the examples *)

Definition sampleText (w : string) : TextData :=
  {| td_word := w;
     td_explanation := "a small domestic animal";
     td_examples := [ {| original := "Tengo un " ++ w ++ ".";
                         translated := "I have one." |} ];
     td_friendlyNote := "Everyday word.";
     td_conjugations := None |}.

Definition sampleResult (w : string) (now : Z) : DictionaryResult :=
  mergeResult (sampleText w) None now "English" "Spanish".

Definition sampleSaved (w uuid : string) : SavedItem :=
  {| dict := sampleResult w 0; id := uuid |}.

Definition sampleNotebook (n : nat) : list SavedItem :=
  map (fun k => sampleSaved (String (ascii_of_nat (97 + k)) "")
                  (String (ascii_of_nat (48 + k)) ""))
      (seq 0 n).

(** An audio context that is suspended at first and on which everything
    succeeds. *)
Definition sampleContext : audioService.AudioContext :=
  {| audioService.suspended := true;
     audioService.resume := Fulfilled tt;
     audioService.createBuffer := fun _ _ _ => Fulfilled tt;
     audioService.start := fun _ => Fulfilled tt |}.

(** ** The notebook store *)

Section Notebook.

Import App.

Lemma setSavedItems_same f st :
  f (savedItems st) = savedItems st -> setSavedItems f st = st.
Proof. destruct st; unfold setSavedItems; cbn; intros ->; reflexivity. Qed.

Lemma some_word_In w nb :
  existsb (fun i : SavedItem => String.eqb (word i) w) nb = true <->
  In w (words nb).
Proof.
  unfold words. rewrite existsb_exists, in_map_iff. split.
  - intros (i & Hi & Heq). apply String.eqb_eq in Heq. eauto.
  - intros (i & Heq & Hi). exists i. split; [assumption|].
    apply String.eqb_eq; assumption.
Qed.

Lemma saveItem_present uuid item st :
  In (word item) (words (savedItems st)) -> saveItem uuid item st = st.
Proof.
  intros H. apply some_word_In in H. unfold saveItem. rewrite H. reflexivity.
Qed.

Lemma saveItem_absent uuid item st :
  ~ In (word item) (words (savedItems st)) ->
  savedItems (saveItem uuid item st)
  = {| dict := item; id := uuid |} :: savedItems st.
Proof.
  intros H. unfold saveItem.
  destruct (existsb _ _) eqn:E; [apply some_word_In in E; contradiction|].
  reflexivity.
Qed.

Lemma saveItem_word_In uuid item st :
  In (word item) (words (savedItems (saveItem uuid item st))).
Proof.
  destruct (in_dec string_dec (word item) (words (savedItems st))) as [H|H].
  - rewrite saveItem_present; assumption.
  - rewrite saveItem_absent by assumption. left. reflexivity.
Qed.

Lemma countWord_cons w i nb :
  countWord w (i :: nb)
  = ((if String.eqb (word i) w then 1 else 0) + countWord w nb)%nat.
Proof. unfold countWord. cbn. destruct (String.eqb _ _); reflexivity. Qed.

Lemma words_cons i nb : words (i :: nb) = word i :: words nb.
Proof. reflexivity. Qed.

Lemma countWord_absent w nb : ~ In w (words nb) -> countWord w nb = 0%nat.
Proof.
  induction nb as [|i nb IH]; [reflexivity|].
  rewrite words_cons, countWord_cons. intros H.
  destruct (String.eqb_spec (word i) w) as [Heq|_].
  - exfalso. apply H. left. assumption.
  - apply IH. intros Hin. apply H. right. assumption.
Qed.

Lemma countWord_unique w nb :
  uniqueWords nb -> In w (words nb) -> countWord w nb = 1%nat.
Proof.
  unfold uniqueWords. induction nb as [|i nb IH]; [intros _ []|].
  rewrite words_cons, countWord_cons.
  intros Hnd Hin. apply NoDup_cons in Hnd as [Hni Hnd].
  destruct (String.eqb_spec (word i) w) as [Heq|Hne].
  - subst w. rewrite countWord_absent; [reflexivity|].
    rewrite <- list_elem_of_In. assumption.
  - destruct Hin as [Heq|Hin]; [contradiction|]. apply IH; assumption.
Qed.

Lemma saveItem_uniqueWords uuid item st :
  uniqueWords (savedItems st) ->
  uniqueWords (savedItems (saveItem uuid item st)).
Proof.
  intros Hu.
  destruct (in_dec string_dec (word item) (words (savedItems st))) as [H|H].
  - rewrite saveItem_present; assumption.
  - rewrite saveItem_absent by assumption. unfold uniqueWords. cbn.
    apply NoDup_cons. split; [|assumption].
    rewrite list_elem_of_In. assumption.
Qed.

Lemma deleteItem_uniqueWords x st :
  uniqueWords (savedItems st) -> uniqueWords (savedItems (deleteItem x st)).
Proof.
  unfold uniqueWords, deleteItem. cbn.
  induction (savedItems st) as [|i nb IH]; cbn; [tauto|].
  intros Hnd. apply NoDup_cons in Hnd as [Hni Hnd].
  destruct (negb _); cbn; [|auto].
  apply NoDup_cons. split; [|auto].
  intros Hin. apply Hni. apply list_elem_of_In. apply list_elem_of_In in Hin.
  unfold words in *. apply in_map_iff in Hin as (j & Hj & Hin).
  apply filter_In in Hin as [Hin _]. apply in_map_iff. eauto.
Qed.

(** C2.  Saving is idempotent on the headword.  In a notebook that has
    one entry per headword at most, saving two results with the same
    [word], in either order, leaves exactly one entry for that word (and
    the notebook keeps its invariant); the second of the two saves changes
    nothing at all, in any notebook. *)
Theorem save_idempotent_on_word (st : AppState) (r1 r2 : DictionaryResult)
    (u1 u2 : string) :
  uniqueWords (savedItems st) ->
  word r1 = word r2 ->
  countWord (word r1) (savedItems (saveItem u2 r2 (saveItem u1 r1 st))) = 1%nat
  /\ countWord (word r1) (savedItems (saveItem u1 r1 (saveItem u2 r2 st))) = 1%nat
  /\ saveItem u2 r2 (saveItem u1 r1 st) = saveItem u1 r1 st
  /\ saveItem u1 r1 (saveItem u2 r2 st) = saveItem u2 r2 st
  /\ uniqueWords (savedItems (saveItem u2 r2 (saveItem u1 r1 st)))
  /\ uniqueWords (savedItems (saveItem u1 r1 (saveItem u2 r2 st))).
Proof.
  intros Hu Hw.
  assert (H21 : saveItem u2 r2 (saveItem u1 r1 st) = saveItem u1 r1 st).
  { apply saveItem_present. rewrite <- Hw. apply saveItem_word_In. }
  assert (H12 : saveItem u1 r1 (saveItem u2 r2 st) = saveItem u2 r2 st).
  { apply saveItem_present. rewrite Hw. apply saveItem_word_In. }
  rewrite H21, H12. repeat split.
  - apply countWord_unique; [apply saveItem_uniqueWords, Hu|].
    apply saveItem_word_In.
  - apply countWord_unique; [apply saveItem_uniqueWords, Hu|].
    rewrite Hw. apply saveItem_word_In.
  - apply saveItem_uniqueWords, Hu.
  - apply saveItem_uniqueWords, Hu.
Qed.

Lemma save_idempotent_on_word_witness :
  uniqueWords (savedItems (initialState []))
  /\ word (sampleResult "gato" 1) = word (sampleResult "gato" 2)
  /\ countWord "gato"
       (savedItems (saveItem "id-2" (sampleResult "gato" 2)
                      (saveItem "id-1" (sampleResult "gato" 1)
                         (initialState [])))) = 1%nat.
Proof.
  assert (Hu : uniqueWords (savedItems (initialState []))) by constructor.
  split; [exact Hu|]. split; [reflexivity|].
  exact (proj1 (save_idempotent_on_word (initialState [])
                  (sampleResult "gato" 1) (sampleResult "gato" 2)
                  "id-1" "id-2" Hu eq_refl)).
Defined.

(** The headwords are compared exactly: a different case is a different
    word. *)
Example save_is_case_sensitive :
  words (savedItems (saveItem "id-2" (sampleResult "Gato" 2)
                       (saveItem "id-1" (sampleResult "gato" 1)
                          (initialState []))))
  = ["Gato"; "gato"].
Proof. reflexivity. Qed.

(** A save that goes through puts the new item in front of the others. *)
Lemma saveItem_cases uuid item st :
  saveItem uuid item st = st \/
  savedItems (saveItem uuid item st)
  = {| dict := item; id := uuid |} :: savedItems st.
Proof.
  destruct (in_dec string_dec (word item) (words (savedItems st))) as [H|H].
  - left. apply saveItem_present, H.
  - right. apply saveItem_absent, H.
Qed.

(** C3, as stated, fails: in a notebook that already holds the headword of
    [A], saving [A], [B], [C] does not put [C], [B], [A] in front. *)
Lemma save_order_counterexample :
  let A := sampleResult "gato" 1 in
  let B := sampleResult "perro" 2 in
  let C := sampleResult "pez" 3 in
  let st := initialState [sampleSaved "casa" "id-8"; sampleSaved "gato" "id-9"] in
  NoDup [word A; word B; word C] /\
  firstn 3 (savedItems (saveItem "id-3" C (saveItem "id-2" B (saveItem "id-1" A st))))
  = [ {| dict := C; id := "id-3" |}; {| dict := B; id := "id-2" |};
      sampleSaved "casa" "id-8" ] /\
  firstn 3 (savedItems (saveItem "id-3" C (saveItem "id-2" B (saveItem "id-1" A st))))
  <> [ {| dict := C; id := "id-3" |}; {| dict := B; id := "id-2" |};
       {| dict := A; id := "id-1" |} ].
Proof.
  cbv zeta. split; [|split].
  - repeat constructor; rewrite list_elem_of_In; cbn; intuition discriminate.
  - reflexivity.
  - intros H. vm_compute in H. discriminate H.
Qed.

(** C3 (amended).  The notebook is ordered most recent first: when none
    of the three distinct headwords is in the notebook yet, saving [A],
    [B], [C] in that order puts [C], [B], [A] in front of the entries that
    were there, which keep their order; and any save either changes
    nothing or puts the new item in front of the unchanged others. *)
Theorem save_prepends_most_recent_first (st : AppState)
    (A B C : DictionaryResult) (uA uB uC : string) :
  NoDup [word A; word B; word C] ->
  ~ In (word A) (words (savedItems st)) ->
  ~ In (word B) (words (savedItems st)) ->
  ~ In (word C) (words (savedItems st)) ->
  savedItems (saveItem uC C (saveItem uB B (saveItem uA A st)))
  = {| dict := C; id := uC |} :: {| dict := B; id := uB |}
      :: {| dict := A; id := uA |} :: savedItems st
  /\ (forall (uuid : string) (item : DictionaryResult) (s : AppState),
        saveItem uuid item s = s \/
        savedItems (saveItem uuid item s)
        = {| dict := item; id := uuid |} :: savedItems s).
Proof.
  intros Hnd HA HB HC. split; [|intros; apply saveItem_cases].
  apply NoDup_cons in Hnd as [HAB Hnd]. apply NoDup_cons in Hnd as [HBC _].
  rewrite list_elem_of_In in HAB, HBC. cbn in HAB, HBC.
  pose proof (saveItem_absent uA A st HA) as EA.
  assert (HB' : ~ In (word B) (words (savedItems (saveItem uA A st)))).
  { rewrite EA, words_cons. cbn. intuition. }
  pose proof (saveItem_absent uB B _ HB') as EB.
  assert (HC' : ~ In (word C)
                  (words (savedItems (saveItem uB B (saveItem uA A st))))).
  { rewrite EB, EA, !words_cons. cbn. intuition. }
  rewrite (saveItem_absent uC C _ HC'), EB, EA. reflexivity.
Qed.

Lemma save_prepends_most_recent_first_witness :
  savedItems (saveItem "id-3" (sampleResult "pez" 3)
                (saveItem "id-2" (sampleResult "perro" 2)
                   (saveItem "id-1" (sampleResult "gato" 1)
                      (initialState [sampleSaved "casa" "id-8"]))))
  = [ {| dict := sampleResult "pez" 3; id := "id-3" |};
      {| dict := sampleResult "perro" 2; id := "id-2" |};
      {| dict := sampleResult "gato" 1; id := "id-1" |};
      sampleSaved "casa" "id-8" ].
Proof.
  refine (proj1 (save_prepends_most_recent_first
                   (initialState [sampleSaved "casa" "id-8"])
                   (sampleResult "gato" 1) (sampleResult "perro" 2)
                   (sampleResult "pez" 3) "id-1" "id-2" "id-3" _ _ _ _)).
  - repeat constructor; rewrite list_elem_of_In; cbn; intuition discriminate.
  - cbn; intuition discriminate.
  - cbn; intuition discriminate.
  - cbn; intuition discriminate.
Defined.

Lemma filter_id_absent x nb :
  ~ In x (ids nb) ->
  List.filter (fun i => negb (String.eqb (id i) x)) nb = nb.
Proof.
  induction nb as [|i nb IH]; [reflexivity|].
  cbn. intros H. destruct (String.eqb_spec (id i) x) as [Heq|_].
  - exfalso. apply H. left. assumption.
  - cbn. f_equal. apply IH. intros Hin. apply H. right. assumption.
Qed.

Lemma filter_id_gone x nb :
  ~ In x (ids (List.filter (fun i => negb (String.eqb (id i) x)) nb)).
Proof.
  unfold ids. rewrite in_map_iff. intros (i & Hi & Hin).
  apply filter_In in Hin as [_ Hin]. subst x.
  rewrite String.eqb_refl in Hin. discriminate.
Qed.

(** C8.  [deleteItem] is a total function of the state and the id (it
    cannot fail); deleting the same id a second time changes nothing, and
    deleting an id that no entry has leaves the whole state as it was. *)
Theorem delete_idempotent_total (st : AppState) (x : string) :
  deleteItem x (deleteItem x st) = deleteItem x st
  /\ ~ In x (ids (savedItems (deleteItem x st)))
  /\ (~ In x (ids (savedItems st)) -> deleteItem x st = st).
Proof.
  split; [|split].
  - apply setSavedItems_same. apply filter_id_absent.
    unfold deleteItem. destruct st; cbn. apply filter_id_gone.
  - unfold deleteItem. destruct st; cbn. apply filter_id_gone.
  - intros H. apply setSavedItems_same. apply filter_id_absent, H.
Qed.

Lemma delete_idempotent_total_witness :
  ~ In "id-7" (ids (savedItems (initialState [sampleSaved "gato" "id-1"])))
  /\ deleteItem "id-7" (initialState [sampleSaved "gato" "id-1"])
     = initialState [sampleSaved "gato" "id-1"].
Proof.
  assert (H : ~ In "id-7"
                (ids (savedItems (initialState [sampleSaved "gato" "id-1"])))).
  { cbn. intuition discriminate. }
  split; [exact H|].
  exact (proj2 (proj2 (delete_idempotent_total
                         (initialState [sampleSaved "gato" "id-1"]) "id-7")) H).
Defined.

(** C10.  Saving a result whose headword is not in the notebook yet puts
    in front of the notebook a copy of the result, equal to it on every
    field, with the id that [crypto.randomUUID()] returned; the entries
    that were there follow unchanged, no other state cell is touched, and
    the ids stay distinct when the new one is fresh. *)
Theorem save_is_copy_plus_id (st : AppState) (uuid : string)
    (item : DictionaryResult) :
  ~ In (word item) (words (savedItems st)) ->
  exists newItem : SavedItem,
    savedItems (saveItem uuid item st) = newItem :: savedItems st
    /\ id newItem = uuid
    /\ word newItem = word item
    /\ explanation newItem = explanation item
    /\ examples newItem = examples item
    /\ friendlyNote newItem = friendlyNote item
    /\ conjugations newItem = conjugations item
    /\ imageUrl newItem = imageUrl item
    /\ timestamp newItem = timestamp item
    /\ sourceLang newItem = sourceLang item
    /\ types.targetLang newItem = types.targetLang item
    /\ saveItem uuid item st = setSavedItems (fun _ => newItem :: savedItems st) st
    /\ (NoDup (ids (savedItems st)) -> ~ In uuid (ids (savedItems st)) ->
        NoDup (ids (savedItems (saveItem uuid item st)))).
Proof.
  intros H. exists {| dict := item; id := uuid |}.
  pose proof (saveItem_absent uuid item st H) as E.
  repeat (split; [first [exact E | reflexivity]|]).
  split.
  - unfold saveItem.
    destruct (existsb _ _) eqn:Ex; [apply some_word_In in Ex; contradiction|].
    reflexivity.
  - intros Hnd Hfresh. rewrite E. unfold ids. cbn. apply NoDup_cons.
    split; [rewrite list_elem_of_In; exact Hfresh | exact Hnd].
Qed.

Lemma save_is_copy_plus_id_witness :
  ~ In (word (sampleResult "gato" 1))
      (words (savedItems (initialState [sampleSaved "casa" "id-8"])))
  /\ exists newItem : SavedItem,
       savedItems (saveItem "id-1" (sampleResult "gato" 1)
                     (initialState [sampleSaved "casa" "id-8"]))
       = [newItem; sampleSaved "casa" "id-8"]
       /\ dict newItem = sampleResult "gato" 1 /\ id newItem = "id-1".
Proof.
  assert (H : ~ In (word (sampleResult "gato" 1))
                (words (savedItems (initialState [sampleSaved "casa" "id-8"])))).
  { cbn. intuition discriminate. }
  split; [exact H|].
  destruct (save_is_copy_plus_id
              (initialState [sampleSaved "casa" "id-8"]) "id-1"
              (sampleResult "gato" 1) H) as (newItem & E & Hid & _).
  exists newItem. split; [exact E|]. split; [|exact Hid].
  cbn in E. injection E as E. rewrite <- E. reflexivity.
Defined.

End Notebook.

(** ** The lookup *)

Section Lookup.

Import App geminiService.

Lemma handleSearch_begin_None st :
  handleSearch_begin st = None <-> trim (query st) = "".
Proof.
  unfold handleSearch_begin, truthy. rewrite negb_involutive.
  destruct (String.eqb_spec (trim (query st)) ""); split; intros H;
    congruence.
Qed.

Lemma handleSearch_begin_Some st st1 req :
  handleSearch_begin st = Some (st1, req) ->
  trim (query st) <> ""
  /\ st1 = setCurrentResult None (setMode SEARCH (setLoading true st))
  /\ req = {| reqQuery := query st; reqNative := name (nativeLang st);
              reqTarget := name (targetLang st) |}.
Proof.
  intros H. split.
  - intros E. apply handleSearch_begin_None in E. congruence.
  - unfold handleSearch_begin in H. destruct (negb _); [discriminate|].
    injection H as <- <-. split; reflexivity.
Qed.

(** The image promise rejects only when the text promise does. *)
Lemma Promise_all_lookup ai definition illustration :
  match lookupWord ai definition with
  | Fulfilled textData =>
      exists image,
        generateConceptImage ai illustration = Fulfilled image
        /\ Promise_all (lookupWord ai definition)
             (generateConceptImage ai illustration)
           = Fulfilled (textData, image)
  | Rejected error =>
      Promise_all (lookupWord ai definition)
        (generateConceptImage ai illustration) = Rejected error
  end.
Proof.
  destruct ai as [[]|e]; cbn; [|reflexivity].
  destruct definition as [textData|error]; cbn; [|reflexivity].
  destruct illustration as [parts|e]; cbn; eauto.
Qed.

Lemma generateConceptImage_failed ai illustration image :
  illustrationFailed illustration ->
  generateConceptImage ai illustration = Fulfilled image -> image = None.
Proof.
  destruct ai as [[]|e]; cbn; [|discriminate].
  destruct illustration as [parts|e]; cbn; [|congruence].
  intros Hall H. injection H as <-.
  induction Hall as [|p parts Hp _ IH]; cbn; [reflexivity|].
  rewrite Hp. exact IH.
Qed.

Lemma handleSearch_catch_cases rev error st :
  currentResult (handleSearch_catch rev error st) = currentResult st
  /\ loading (handleSearch_catch rev error st) = loading st
  /\ (alerts (handleSearch_catch rev error st) = oops :: alerts st
      \/ rev = WithSettings
         /\ alerts (handleSearch_catch rev error st) = apiKeyError :: alerts st
         /\ showSettings (handleSearch_catch rev error st) = true).
Proof.
  destruct rev; cbn; [auto|].
  destruct (match message error with Some m => _ | None => _ end); cbn.
  - split; [reflexivity|]. split; [reflexivity|]. right. auto.
  - auto.
Qed.

(** C1.  A lookup on a blank query is rejected on the spot: no call is
    made.  Any other lookup ends in one of two ways, whatever the state of
    the component has become when its promises settle (the language
    selection may have changed): a result is produced whose [sourceLang]
    and [targetLang] are the names selected when the lookup started, and
    nothing is alerted; or the definition request failed, no result is
    set, and the failure is reported under its class (the generic notice,
    or in the revision with settings the API key notice, which opens the
    settings). *)
Theorem lookup_keeps_request_languages (rev : Revision) (st0 : AppState) :
  match handleSearch_begin st0 with
  | None => trim (query st0) = ""
  | Some (st1, req) =>
      trim (query st0) <> "" /\
      forall (st2 : AppState) (ai : settled unit)
             (definition : settled TextData)
             (illustration : settled (list Part)) (now : Z),
        let st3 :=
          handleSearch_settle rev req (lookupWord ai definition)
            (generateConceptImage ai illustration) now st2 in
        (exists r : DictionaryResult,
            currentResult st3 = Some r
            /\ sourceLang r = name (nativeLang st0)
            /\ types.targetLang r = name (targetLang st0)
            /\ alerts st3 = alerts st2)
        \/ (exists error : JsError,
               lookupWord ai definition = Rejected error
               /\ currentResult st3 = currentResult st2
               /\ (alerts st3 = oops :: alerts st2
                   \/ rev = WithSettings
                      /\ alerts st3 = apiKeyError :: alerts st2
                      /\ showSettings st3 = true))
  end.
Proof.
  destruct (handleSearch_begin st0) as [[st1 req]|] eqn:Hb.
  - apply handleSearch_begin_Some in Hb as (Hq & _ & ->).
    split; [exact Hq|]. intros st2 ai definition illustration now.
    pose proof (Promise_all_lookup ai definition illustration) as HP.
    unfold handleSearch_settle. cbv zeta.
    destruct (lookupWord ai definition) as [textData|error].
    + destruct HP as (image & _ & ->). left.
      eexists. repeat split.
    + rewrite HP. right. exists error. split; [reflexivity|].
      destruct (handleSearch_catch_cases rev error st2) as (Hc & _ & Ha).
      split; [exact Hc|]. exact Ha.
  - apply handleSearch_begin_None, Hb.
Qed.

(** C4.  When the definition request succeeds and the illustration
    collaborator fails, the lookup still produces its result, without an
    image, and reports no error. *)
Theorem illustration_failure_is_not_fatal (rev : Revision)
    (st0 st1 st2 : AppState) (req : Request) (ai : settled unit)
    (definition : settled TextData) (textData : TextData)
    (illustration : settled (list Part)) (now : Z) :
  handleSearch_begin st0 = Some (st1, req) ->
  lookupWord ai definition = Fulfilled textData ->
  illustrationFailed illustration ->
  let st3 :=
    handleSearch_settle rev req (lookupWord ai definition)
      (generateConceptImage ai illustration) now st2 in
  currentResult st3
  = Some (mergeResult textData None now (name (nativeLang st0))
            (name (targetLang st0)))
  /\ (forall r, currentResult st3 = Some r -> imageUrl r = None)
  /\ alerts st3 = alerts st2
  /\ loading st3 = false.
Proof.
  intros Hb Hdef Hill st3. subst st3.
  apply handleSearch_begin_Some in Hb as (_ & _ & ->).
  pose proof (Promise_all_lookup ai definition illustration) as HP.
  rewrite Hdef in *. destruct HP as (image & Himg & HP).
  set (st3 := handleSearch_settle _ _ _ _ _ _).
  apply generateConceptImage_failed in Himg as ->; [|exact Hill].
  assert (E : currentResult st3
              = Some (mergeResult textData None now (name (nativeLang st0))
                        (name (targetLang st0)))).
  { subst st3. unfold handleSearch_settle. rewrite HP. reflexivity. }
  split; [exact E|]. split; [|split].
  - intros r Hr. rewrite E in Hr. injection Hr as <-. reflexivity.
  - subst st3. unfold handleSearch_settle. rewrite HP. reflexivity.
  - subst st3. unfold handleSearch_settle. rewrite HP. reflexivity.
Qed.

Lemma illustration_failure_is_not_fatal_witness :
  let st0 := setQuery "gato" (initialState []) in
  exists st1 req,
    handleSearch_begin st0 = Some (st1, req)
    /\ lookupWord (Fulfilled tt) (Fulfilled (sampleText "gato"))
       = Fulfilled (sampleText "gato")
    /\ illustrationFailed (Rejected {| message := Some "quota exceeded" |})
    /\ currentResult
         (handleSearch_settle Plain req
            (lookupWord (Fulfilled tt) (Fulfilled (sampleText "gato")))
            (generateConceptImage (Fulfilled tt)
               (Rejected {| message := Some "quota exceeded" |}))
            7 st1)
       = Some (sampleResult "gato" 7).
Proof.
  cbv zeta. eexists _, _.
  split; [reflexivity|]. split; [reflexivity|]. split; [exact I|].
  exact (proj1 (illustration_failure_is_not_fatal Plain
                  (setQuery "gato" (initialState [])) _ _ _
                  (Fulfilled tt) (Fulfilled (sampleText "gato"))
                  (sampleText "gato")
                  (Rejected {| message := Some "quota exceeded" |}) 7
                  eq_refl eq_refl I)).
Defined.

(** Changing the selection while a lookup is in flight: the result
    carries the names of the start, the selectors show the new ones. *)
Example lookup_languages_after_change :
  let s := run WithSettings (mounted [])
             [ Started; QueryTyped "gato"; Submitted;
               NativeChanged "de"; TargetChanged "fr";
               Settled 0 (Fulfilled tt) (Fulfilled (sampleText "gato"))
                 (Fulfilled []) 7 ] in
  currentResult (ui s) = Some (sampleResult "gato" 7)
  /\ name (nativeLang (ui s)) = "German"
  /\ name (targetLang (ui s)) = "French".
Proof. cbv zeta. split; [|split]; reflexivity. Qed.

(** A rejected definition request, in the two revisions. *)
Example lookup_failure_alerts :
  let evs rev :=
    run rev (mounted [])
      [ Started; QueryTyped "gato"; Submitted;
        Settled 0 (Fulfilled tt)
          (Rejected {| message := Some "API Key not valid" |})
          (Fulfilled []) 7 ] in
  alerts (ui (evs Plain)) = [oops]
  /\ alerts (ui (evs WithSettings)) = [apiKeyError]
  /\ showSettings (ui (evs WithSettings)) = true
  /\ currentResult (ui (evs WithSettings)) = None.
Proof. cbv zeta. repeat split; reflexivity. Qed.

(** The invariant of the notebook holds all along a run. *)
Lemma handleSearch_settle_savedItems rev req textPromise imagePromise now st :
  savedItems (handleSearch_settle rev req textPromise imagePromise now st)
  = savedItems st.
Proof.
  unfold handleSearch_settle.
  destruct (Promise_all textPromise imagePromise) as [[textData image]|error];
    cbn; [reflexivity|].
  destruct rev; cbn; [reflexivity|].
  destruct (match message error with Some m => _ | None => _ end); reflexivity.
Qed.

Lemma step_uniqueWords rev s e :
  uniqueWords (savedItems (ui s)) -> uniqueWords (savedItems (ui (step rev s e))).
Proof.
  intros H. destruct e; cbn [step ui]; try exact H.
  - apply saveItem_uniqueWords, H.
  - apply deleteItem_uniqueWords, H.
  - destruct (handleSearch_begin (ui s)) as [[st1 req]|] eqn:Hb; [|exact H].
    apply handleSearch_begin_Some in Hb as (_ & -> & _). exact H.
  - destruct (inflight s !! k); [|exact H].
    cbn [ui]. rewrite handleSearch_settle_savedItems. exact H.
Qed.

Lemma run_uniqueWords rev events :
  forall s,
    uniqueWords (savedItems (ui s)) ->
    uniqueWords (savedItems (ui (run rev s events))).
Proof.
  unfold run. induction events as [|e events IH]; cbn; [auto|].
  intros s H. apply IH, step_uniqueWords, H.
Qed.

(** *** Late responses *)

(** C9, as stated, fails, on a run the form admits: while the lookup of
    "gato" is loading the user opens the notebook and a saved entry; when
    the response arrives it is not dropped but replaces the entry on
    display. *)
Lemma stale_lookup_response_counterexample :
  let casa := sampleSaved "casa" "id-8" in
  let events :=
    [ Started; QueryTyped "gato"; Submitted; ModeOpened NOTEBOOK;
      Reviewed casa ] in
  let before := run_ui Plain (mounted [casa]) events in
  let after :=
    step_ui Plain before
      (Settled 0 (Fulfilled tt) (Fulfilled (sampleText "gato"))
         (Fulfilled []) 30) in
  before = run Plain (mounted [casa]) events
  /\ In casa (savedItems (ui before))
  /\ inflight before
     = [ {| reqQuery := "gato"; reqNative := "English"; reqTarget := "Spanish" |} ]
  /\ currentResult (ui before) = Some (dict casa)
  /\ currentResult (ui after) = Some (sampleResult "gato" 30)
  /\ currentResult (ui after) <> currentResult (ui before).
Proof.
  cbv zeta. split; [vm_compute; reflexivity|].
  split; [left; vm_compute; reflexivity|].
  split; [vm_compute; reflexivity|]. split; [vm_compute; reflexivity|].
  split; [vm_compute; reflexivity|].
  intros H. vm_compute in H. discriminate H.
Qed.

(** The handlers other than the lookup leave [loading] alone. *)
Lemma saveItem_loading uuid item st : loading (saveItem uuid item st) = loading st.
Proof. unfold saveItem. destruct (existsb _ _); reflexivity. Qed.

Lemma step_ui_oneInFlight rev s e :
  oneInFlight s -> oneInFlight (step_ui rev s e).
Proof.
  unfold oneInFlight, step_ui. destruct s as [st fl]. cbn [ui inflight].
  intros H.
  destruct e; cbn [enabled step ui inflight]; try exact H.
  - (* Saved *) rewrite saveItem_loading. exact H.
  - (* Submitted *)
    destruct (loading st) eqn:Hl; cbn [negb ui inflight].
    + rewrite Hl. exact H.
    + destruct fl as [|r [|r' fl]]; [|discriminate H|contradiction].
      destruct (handleSearch_begin st) as [[st1 req]|] eqn:Hb;
        cbn [ui inflight app].
      * apply handleSearch_begin_Some in Hb as (_ & -> & _). reflexivity.
      * exact I.
  - (* Settled *)
    destruct fl as [|r [|r' fl]]; [exact I| |contradiction].
    destruct k as [|k]; cbn; [exact I|].
    destruct k; cbn; exact H.
Qed.

Lemma run_ui_oneInFlight rev events :
  forall s, oneInFlight s -> oneInFlight (run_ui rev s events).
Proof.
  unfold run_ui. induction events as [|e events IH]; cbn; [auto|].
  intros s H. apply IH, step_ui_oneInFlight, H.
Qed.

(** C9 (amended).  No identity is checked when a response arrives:
    whichever lookup in flight it belongs to, and whatever happened since
    that lookup started, a successful response becomes the current
    result.  What keeps lookups from overlapping is the form: its button is
    disabled while a lookup loads, so that through it at most one lookup
    is in flight at a time. *)
Theorem lookup_response_always_applied (rev : Revision) (s : Sys) (k : nat)
    (req : Request) (textData : TextData) (parts : list Part) (now : Z) :
  inflight s !! k = Some req ->
  currentResult
    (ui (step rev s
           (Settled k (Fulfilled tt) (Fulfilled textData) (Fulfilled parts) now)))
  = Some (mergeResult textData (firstInlineData parts) now
            (reqNative req) (reqTarget req))
  /\ (forall (saved : list SavedItem) (events : list Event),
        length (inflight (run_ui rev (mounted saved) events)) <= 1).
Proof.
  intros Hk. split.
  - cbn [step]. rewrite Hk. reflexivity.
  - intros saved events.
    pose proof (run_ui_oneInFlight rev events (mounted saved) I) as H.
    unfold oneInFlight in H.
    destruct (inflight (run_ui rev (mounted saved) events)) as [|r [|r' fl]];
      cbn; [lia|lia|contradiction].
Qed.

Lemma lookup_response_always_applied_witness :
  let s :=
    run_ui Plain (mounted [])
      [ Started; QueryTyped "gato"; Submitted; QueryTyped "perro" ] in
  inflight s !! 0%nat
  = Some {| reqQuery := "gato"; reqNative := "English"; reqTarget := "Spanish" |}
  /\ query (ui s) = "perro"
  /\ currentResult
       (ui (step Plain s
              (Settled 0 (Fulfilled tt) (Fulfilled (sampleText "gato"))
                 (Fulfilled []) 30)))
     = Some (sampleResult "gato" 30).
Proof.
  cbv zeta. split; [reflexivity|]. split; [reflexivity|].
  exact (proj1 (lookup_response_always_applied Plain
                  (run_ui Plain (mounted [])
                     [ Started; QueryTyped "gato"; Submitted;
                       QueryTyped "perro" ])
                  0 _ (sampleText "gato") [] 30 eq_refl)).
Defined.

End Lookup.

(** ** Persistence *)

Section Persistence.

Import App.

Lemma parse_empty : JSON.parse "" = Rejected JSON.SyntaxError.
Proof. reflexivity. Qed.

Lemma truthy_nonempty s : s <> "" -> truthy s = true.
Proof.
  intros H. unfold truthy. destruct (String.eqb_spec s ""); [contradiction|].
  reflexivity.
Qed.

(** C5, as stated, fails: a stored text that is not JSON makes the
    initializer of the notebook, and that of the settings, throw. *)
Lemma corrupt_storage_counterexample :
  savedItems_init {[ "lingopop_saved" := "[{" ++ dq ++ "word" ++ dq ++ ":" ]}
  = Rejected JSON.SyntaxError
  /\ settings_init {[ "lingopop_settings" := "not json" ]}
     = Rejected JSON.SyntaxError.
Proof. split; vm_compute; reflexivity. Qed.

(** C5 (amended).  The persisted cells are read without a guard.  With
    no stored value, or an empty one, the notebook starts empty and the
    settings are [DEFAULT_SETTINGS]; a stored text that [JSON.parse]
    accepts is loaded as what it parses to; in these cases nothing is
    thrown.  A stored text that [JSON.parse] rejects makes the initializer
    throw that error. *)
Theorem store_construction_unguarded (localStorage : gmap string string) :
  (localStorage !! "lingopop_saved" = None
   \/ localStorage !! "lingopop_saved" = Some "" ->
   savedItems_init localStorage = Fulfilled (Literal []))
  /\ (localStorage !! "lingopop_settings" = None
      \/ localStorage !! "lingopop_settings" = Some "" ->
      settings_init localStorage = Fulfilled (Literal DEFAULT_SETTINGS))
  /\ (forall saved v,
        localStorage !! "lingopop_saved" = Some saved ->
        JSON.parse saved = Fulfilled v ->
        savedItems_init localStorage = Fulfilled (Parsed v))
  /\ (forall saved v,
        localStorage !! "lingopop_settings" = Some saved ->
        JSON.parse saved = Fulfilled v ->
        settings_init localStorage = Fulfilled (Parsed v))
  /\ (forall saved e,
        localStorage !! "lingopop_saved" = Some saved -> saved <> "" ->
        JSON.parse saved = Rejected e ->
        savedItems_init localStorage = Rejected e)
  /\ (forall saved e,
        localStorage !! "lingopop_settings" = Some saved -> saved <> "" ->
        JSON.parse saved = Rejected e ->
        settings_init localStorage = Rejected e).
Proof.
  unfold savedItems_init, settings_init. repeat split.
  - intros [-> | ->]; reflexivity.
  - intros [-> | ->]; reflexivity.
  - intros saved v -> Hp.
    destruct (string_dec saved "") as [->|Hne]; [discriminate Hp|].
    rewrite truthy_nonempty, Hp by assumption. reflexivity.
  - intros saved v -> Hp.
    destruct (string_dec saved "") as [->|Hne]; [discriminate Hp|].
    rewrite truthy_nonempty, Hp by assumption. reflexivity.
  - intros saved e -> Hne Hp. rewrite truthy_nonempty, Hp by assumption.
    reflexivity.
  - intros saved e -> Hne Hp. rewrite truthy_nonempty, Hp by assumption.
    reflexivity.
Qed.

Lemma store_construction_unguarded_witness :
  let localStorage : gmap string string :=
    {[ "lingopop_saved" := "[]"; "lingopop_settings" := "oops" ]} in
  (localStorage !! "lingopop_saved" = Some "[]"
   /\ JSON.parse "[]" = Fulfilled (JSON.Arr [])
   /\ savedItems_init localStorage = Fulfilled (Parsed (JSON.Arr [])))
  /\ (localStorage !! "lingopop_settings" = Some "oops"
      /\ "oops" <> ""
      /\ JSON.parse "oops" = Rejected JSON.SyntaxError
      /\ settings_init localStorage = Rejected JSON.SyntaxError)
  /\ ((∅ : gmap string string) !! "lingopop_saved" = None
      /\ savedItems_init ∅ = Fulfilled (Literal [])).
Proof.
  cbv zeta.
  set (localStorage :=
         {[ "lingopop_saved" := "[]"; "lingopop_settings" := "oops" ]}
         : gmap string string).
  assert (H1 : localStorage !! "lingopop_saved" = Some "[]")
    by (vm_compute; reflexivity).
  assert (H2 : localStorage !! "lingopop_settings" = Some "oops")
    by (vm_compute; reflexivity).
  assert (H3 : "oops" <> "") by discriminate.
  destruct (store_construction_unguarded localStorage)
    as (_ & _ & Hok & _ & _ & Hbad).
  destruct (store_construction_unguarded ∅) as (Habsent & _).
  split; [|split].
  - split; [exact H1|]. split; [reflexivity|].
    exact (Hok "[]" (JSON.Arr []) H1 eq_refl).
  - split; [exact H2|]. split; [exact H3|]. split; [reflexivity|].
    exact (Hbad "oops" JSON.SyntaxError H2 H3 eq_refl).
  - split; [reflexivity|]. exact (Habsent (or_introl eq_refl)).
Defined.

End Persistence.

(** ** Story weaving *)

Lemma prefix_app (t r : string) : String.prefix t (t ++ r) = true.
Proof.
  induction t as [|c t IH]; simpl; [destruct r; reflexivity|].
  destruct (Ascii.ascii_dec c c); [exact IH|contradiction].
Qed.

Lemma includes_app_r (a s t : string) :
  includes s t = true -> includes (a ++ s) t = true.
Proof.
  intros H. induction a as [|c a IH]; simpl; [exact H|].
  rewrite IH. apply orb_true_r.
Qed.

Lemma includes_prefix (s t : string) :
  String.prefix t s = true -> includes s t = true.
Proof. intros H. destruct s; unfold includes; rewrite H; reflexivity. Qed.

Lemma includes_middle (a t b : string) : includes (a ++ t ++ b) t = true.
Proof. apply includes_app_r, includes_prefix, prefix_app. Qed.

Section Story.

Import NotebookView geminiService.

Lemma handleWeaveStory_few ai items nativeLangName :
  length items < 2 ->
  handleWeaveStory ai items nativeLangName
  = (fun st => st, Return (fun st => st)).
Proof.
  intros H. unfold handleWeaveStory.
  destruct (Nat.ltb_spec (length items) 2); [reflexivity|lia].
Qed.

Lemma handleWeaveStory_issued ai items nativeLangName :
  issued (snd (handleWeaveStory ai items nativeLangName))
  = if (length items <? 2)%nat then None
    else match ai with
         | Fulfilled _ =>
             Some (weaveStory_request (firstn 10 items) nativeLangName)
         | Rejected _ => None
         end.
Proof.
  unfold handleWeaveStory. destruct (length items <? 2)%nat; [reflexivity|].
  destruct ai; reflexivity.
Qed.

(** C7.  Story weaving is not invoked on fewer than two items.  When it
    is, the one request it issues is built from the first ten items of the
    sequence and from nothing else: its word list is the headwords of
    those items, in order, and two sequences with the same first ten items
    lead to the same request. *)
Theorem weave_story_first_ten (ai : settled unit) (items : list SavedItem)
    (nativeLangName : string) :
  let h := handleWeaveStory ai items nativeLangName in
  (length items < 2 ->
   issued (snd h) = None
   /\ forall response st, fst h st = st /\ resume (snd h) response st = st)
  /\ (forall u, 2 <= length items -> ai = Fulfilled u ->
      issued (snd h)
      = Some (weaveStory_request (firstn 10 items) nativeLangName))
  /\ (forall req, issued (snd h) = Some req ->
      2 <= length items
      /\ length (firstn 10 items) <= 10
      /\ req = weaveStory_request (firstn 10 items) nativeLangName
      /\ includes (gc_contents req)
           (join ", " (map (fun i : SavedItem => word i) (firstn 10 items)))
         = true)
  /\ (forall items', firstn 10 items' = firstn 10 items ->
      2 <= length items' -> 2 <= length items ->
      issued (snd (handleWeaveStory ai items' nativeLangName))
      = issued (snd h)).
Proof.
  cbv zeta. split; [|split; [|split]].
  - intros H. rewrite handleWeaveStory_few by assumption. cbn. auto.
  - intros u H ->. rewrite handleWeaveStory_issued.
    destruct (Nat.ltb_spec (length items) 2); [lia|reflexivity].
  - intros req. rewrite handleWeaveStory_issued.
    destruct (Nat.ltb_spec (length items) 2); [discriminate|].
    destruct ai; [|discriminate]. intros [= <-].
    split; [lia|]. split; [rewrite length_firstn; lia|].
    split; [reflexivity|].
    cbn [weaveStory_request gc_contents]. unfold weaveStory_words.
    apply includes_app_r, includes_middle.
  - intros items' E H' H. rewrite !handleWeaveStory_issued, E.
    destruct (Nat.ltb_spec (length items') 2); [lia|].
    destruct (Nat.ltb_spec (length items) 2); [lia|]. reflexivity.
Qed.

Lemma weave_story_first_ten_witness :
  2 <= length (sampleNotebook 12)
  /\ issued (snd (handleWeaveStory (Fulfilled tt) (sampleNotebook 12) "English"))
     = Some (weaveStory_request (sampleNotebook 10) "English")
  /\ weaveStory_words (sampleNotebook 10) = "a, b, c, d, e, f, g, h, i, j"
  /\ words (sampleNotebook 12)
     = ["a"; "b"; "c"; "d"; "e"; "f"; "g"; "h"; "i"; "j"; "k"; "l"].
Proof.
  assert (H : 2 <= length (sampleNotebook 12)) by (cbn; lia).
  split; [exact H|]. split; [|split; reflexivity].
  exact (proj1 (proj2 (weave_story_first_ten (Fulfilled tt)
                         (sampleNotebook 12) "English")) tt H eq_refl).
Defined.

End Story.

(** ** The chat session *)

Section Chat.

Import ResultCard geminiService.

Variable result : DictionaryResult.
Variables nativeLangName targetLangName : string.

Abbreviation send' := (sendOnce result nativeLangName targetLangName).

(** What one send does to the transcript. *)
Lemma send_chatHistory (s : Send) (st : State) :
  chatHistory (send' s st)
  = (chatHistory st
     ++ (if blank s then []
         else {| role := user; text := input s |}
              :: match client s, reply s with
                 | Fulfilled _, Fulfilled t => [ {| role := model; text := t |} ]
                 | _, _ => []
                 end))%list.
Proof.
  unfold sendOnce, send, handleChatSubmit, blank.
  cbn [chatInput setChatInput].
  destruct (negb (truthy (trim (input s)))); cbn.
  - rewrite app_nil_r. reflexivity.
  - destruct (client s) as [u|e]; cbn.
    + destruct (reply s) as [t|e]; cbn; [|reflexivity].
      rewrite <- app_assoc. reflexivity.
    + reflexivity.
Qed.

Lemma send_length (s : Send) (st : State) :
  length (chatHistory (send' s st))
  = length (chatHistory st)
    + (if succeeds s then 2 else 0) + (if fails s then 1 else 0).
Proof.
  rewrite send_chatHistory, length_app. unfold fails, succeeds.
  destruct (blank s); cbn; [lia|].
  destruct (client s); [destruct (reply s)|]; cbn; lia.
Qed.

Lemma session_length (sends : list Send) :
  forall st,
    length (chatHistory (session result nativeLangName targetLangName sends st))
    = length (chatHistory st)
      + 2 * length (List.filter succeeds sends)
      + length (List.filter fails sends).
Proof.
  unfold session. induction sends as [|s sends IH]; intros st; cbn; [lia|].
  rewrite IH, send_length.
  destruct (succeeds s), (fails s); cbn; lia.
Qed.

Lemma session_roles (sends : list Send) :
  forallb succeeds sends = true ->
  forall st,
    map role
      (chatHistory (session result nativeLangName targetLangName sends st))
    = (map role (chatHistory st)
       ++ concat (map (fun _ => [user; model]) sends))%list.
Proof.
  unfold session. induction sends as [|s sends IH]; intros Hall st; cbn.
  - rewrite app_nil_r. reflexivity.
  - cbn in Hall. apply andb_true_iff in Hall as [Hs Hall].
    rewrite (IH Hall), send_chatHistory.
    unfold succeeds in Hs. destruct (blank s); [discriminate|].
    destruct (client s); [|discriminate].
    destruct (reply s); [|discriminate].
    rewrite map_app, <- app_assoc. reflexivity.
Qed.

(** C6, as stated, fails: after a failed send and its successful retry
    there has been one successful send, and the transcript holds three
    messages, two of them from the user in a row; its length is still
    odd. *)
Lemma chat_retry_counterexample :
  let sends :=
    [ {| input := "why?"; client := Fulfilled tt;
         reply := Rejected {| message := Some "network" |} |};
      {| input := "why?"; client := Fulfilled tt;
         reply := Fulfilled "Because." |} ] in
  let st :=
    session (sampleResult "gato" 1) "English" "Spanish" sends initialState in
  length (List.filter succeeds sends) = 1
  /\ chatHistory st
     = [ {| role := user; text := "why?" |};
         {| role := user; text := "why?" |};
         {| role := model; text := "Because." |} ]
  /\ length (chatHistory st) <> 2 * 1
  /\ Nat.odd (length (chatHistory st)) = true.
Proof.
  cbv zeta. split; [reflexivity|]. split; [reflexivity|].
  split; [|reflexivity]. intros H. vm_compute in H. discriminate H.
Qed.

(** C6 (amended).  In a chat session the visible transcript, which never
    holds the priming turns, has two messages for each send that succeeded
    and one for each send that failed.  After [N] sends that all succeeded
    its length is [2 N] and user message and reply alternate.  A failed
    send adds the user message and no reply; a later send adds its own
    user message again before the reply, so the length stays odd after one
    failure and its retry. *)
Theorem chat_transcript_length (sends : list Send) :
  let st :=
    session result nativeLangName targetLangName sends initialState in
  length (chatHistory st)
  = 2 * length (List.filter succeeds sends) + length (List.filter fails sends)
  /\ (forallb succeeds sends = true ->
      length (chatHistory st) = 2 * length sends
      /\ map role (chatHistory st)
         = concat (map (fun _ => [user; model]) sends))
  /\ (forall (s : Send) (st0 : State), fails s = true ->
      chatHistory (sendOnce result nativeLangName targetLangName s st0)
      = (chatHistory st0 ++ [ {| role := user; text := input s |} ])%list)
  /\ (forall (s : Send) (st0 : State), succeeds s = true ->
      exists t,
        reply s = Fulfilled t
        /\ chatHistory (sendOnce result nativeLangName targetLangName s st0)
           = (chatHistory st0
              ++ [ {| role := user; text := input s |};
                   {| role := model; text := t |} ])%list).
Proof.
  cbv zeta. split; [|split; [|split]].
  - rewrite session_length. cbn. lia.
  - intros Hall. split.
    + rewrite session_length. cbn.
      assert (Hf : forall l, forallb succeeds l = true ->
                     List.filter succeeds l = l
                     /\ List.filter fails l = []).
      { induction l as [|s l IH]; cbn; [auto|].
        intros H. apply andb_true_iff in H as [Hs H].
        destruct (IH H) as [-> ->]. unfold fails. rewrite Hs.
        rewrite andb_false_r. auto. }
      destruct (Hf sends Hall) as [-> ->]. cbn. lia.
    + rewrite session_roles by assumption. reflexivity.
  - intros s st0 Hf. rewrite send_chatHistory.
    unfold fails, succeeds in Hf. destruct (blank s); [discriminate|].
    destruct (client s); [destruct (reply s)|]; cbn in Hf;
      [discriminate|reflexivity|reflexivity].
  - intros s st0 Hs. rewrite send_chatHistory.
    unfold succeeds in Hs. destruct (blank s); [discriminate|].
    destruct (client s); [|discriminate].
    destruct (reply s) as [t|]; [|discriminate].
    exists t. split; reflexivity.
Qed.

End Chat.

Lemma chat_transcript_length_witness :
  let sends :=
    [ {| input := "why?"; client := Fulfilled tt;
         reply := Fulfilled "Because." |};
      {| input := "always?"; client := Fulfilled tt;
         reply := Fulfilled "Mostly." |} ] in
  let st :=
    session (sampleResult "gato" 1) "English" "Spanish" sends
      ResultCard.initialState in
  forallb succeeds sends = true
  /\ length (ResultCard.chatHistory st) = 4
  /\ map role (ResultCard.chatHistory st) = [user; model; user; model].
Proof.
  cbv zeta. split; [reflexivity|].
  exact (proj1 (proj2 (chat_transcript_length (sampleResult "gato" 1)
                         "English" "Spanish"
                         [ {| input := "why?"; client := Fulfilled tt;
                              reply := Fulfilled "Because." |};
                           {| input := "always?"; client := Fulfilled tt;
                              reply := Fulfilled "Mostly." |} ])) eq_refl).
Defined.

(** ** More on the notebook and the component *)

Section Component.

Import App geminiService.

Lemma filter_id_split (x : string) (nb : list SavedItem) :
  NoDup (ids nb) -> In x (ids nb) ->
  exists l1 i l2,
    nb = (l1 ++ i :: l2)%list /\ id i = x
    /\ List.filter (fun i => negb (String.eqb (id i) x)) nb = (l1 ++ l2)%list.
Proof.
  induction nb as [|j nb IH]; [intros _ []|].
  unfold ids. cbn [map]. intros Hnd Hin.
  apply NoDup_cons in Hnd as [Hj Hnd]. rewrite list_elem_of_In in Hj.
  cbn [List.filter]. destruct (String.eqb_spec (id j) x) as [Heq|Hne].
  - exists [], j, nb. subst x. cbn. repeat split.
    apply filter_id_absent. exact Hj.
  - destruct Hin as [Heq|Hin]; [contradiction|].
    destruct (IH Hnd Hin) as (l1 & i & l2 & -> & Hi & Hf).
    exists (j :: l1), i, l2. cbn. rewrite Hf. auto.
Qed.

(** Deleting the id of an entry, in a notebook whose ids are distinct,
    takes out that one entry and leaves the others in their order. *)
Theorem delete_removes_exactly_one (st : AppState) (x : string) :
  NoDup (ids (savedItems st)) ->
  In x (ids (savedItems st)) ->
  exists l1 i l2,
    savedItems st = (l1 ++ i :: l2)%list
    /\ id i = x
    /\ savedItems (deleteItem x st) = (l1 ++ l2)%list
    /\ length (savedItems (deleteItem x st)) = pred (length (savedItems st)).
Proof.
  intros Hnd Hin.
  destruct (filter_id_split x (savedItems st) Hnd Hin)
    as (l1 & i & l2 & E & Hi & Hf).
  exists l1, i, l2. split; [exact E|]. split; [exact Hi|].
  assert (Ed : savedItems (deleteItem x st) = (l1 ++ l2)%list).
  { unfold deleteItem. destruct st; cbn in *. exact Hf. }
  split; [exact Ed|]. rewrite Ed, E, !length_app. cbn. lia.
Qed.

Lemma delete_removes_exactly_one_witness :
  let st := initialState [sampleSaved "casa" "id-8"; sampleSaved "gato" "id-9";
                          sampleSaved "pez" "id-7"] in
  NoDup (ids (savedItems st))
  /\ In "id-9" (ids (savedItems st))
  /\ exists l1 i l2,
       savedItems st = (l1 ++ i :: l2)%list
       /\ id i = "id-9"
       /\ savedItems (deleteItem "id-9" st) = (l1 ++ l2)%list
       /\ length (savedItems (deleteItem "id-9" st))
          = pred (length (savedItems st)).
Proof.
  cbv zeta.
  set (st := initialState [sampleSaved "casa" "id-8"; sampleSaved "gato" "id-9";
                           sampleSaved "pez" "id-7"]).
  assert (Hnd : NoDup (ids (savedItems st))).
  { repeat constructor; rewrite list_elem_of_In; cbn; intuition discriminate. }
  assert (Hin : In "id-9" (ids (savedItems st))) by (cbn; auto).
  split; [exact Hnd|]. split; [exact Hin|].
  exact (delete_removes_exactly_one st "id-9" Hnd Hin).
Defined.

(** Deleting right after a save, by the id the save drew, gives back the
    state before the save, when the word was new and the id fresh. *)
Theorem delete_undoes_save (st : AppState) (uuid : string)
    (item : DictionaryResult) :
  ~ In (word item) (words (savedItems st)) ->
  ~ In uuid (ids (savedItems st)) ->
  deleteItem uuid (saveItem uuid item st) = st.
Proof.
  intros Hw Hid. unfold saveItem.
  destruct (existsb _ _) eqn:Ex; [apply some_word_In in Ex; contradiction|].
  unfold deleteItem. destruct st; unfold setSavedItems; cbn in *.
  rewrite String.eqb_refl. cbn. rewrite filter_id_absent by exact Hid.
  reflexivity.
Qed.

Lemma delete_undoes_save_witness :
  let st := initialState [sampleSaved "casa" "id-8"] in
  ~ In (word (sampleResult "gato" 1)) (words (savedItems st))
  /\ ~ In "id-1" (ids (savedItems st))
  /\ deleteItem "id-1" (saveItem "id-1" (sampleResult "gato" 1) st) = st.
Proof.
  cbv zeta.
  assert (Hw : ~ In (word (sampleResult "gato" 1))
                 (words (savedItems (initialState [sampleSaved "casa" "id-8"]))))
    by (cbn; intuition discriminate).
  assert (Hid : ~ In "id-1"
                  (ids (savedItems (initialState [sampleSaved "casa" "id-8"]))))
    by (cbn; intuition discriminate).
  split; [exact Hw|]. split; [exact Hid|].
  exact (delete_undoes_save _ "id-1" (sampleResult "gato" 1) Hw Hid).
Defined.

(** Along a run the notebook keeps one entry per headword at most. *)
Theorem notebook_words_stay_unique (rev : Revision) (saved : list SavedItem)
    (events : list Event) :
  uniqueWords saved ->
  uniqueWords (savedItems (ui (run rev (mounted saved) events))).
Proof.
  intros H. unfold run.
  assert (G : forall s, uniqueWords (savedItems (ui s)) ->
                uniqueWords (savedItems (ui (fold_left (step rev) events s)))).
  { induction events as [|e events IH]; cbn; [auto|].
    intros s Hs. apply IH, step_uniqueWords, Hs. }
  apply G. exact H.
Qed.

Lemma notebook_words_stay_unique_witness :
  uniqueWords [sampleSaved "casa" "id-8"]
  /\ uniqueWords
       (savedItems
          (ui (run Plain (mounted [sampleSaved "casa" "id-8"])
                 [ Started; Saved "id-1" (sampleResult "gato" 1);
                   Saved "id-2" (sampleResult "casa" 2);
                   Saved "id-3" (sampleResult "gato" 3); Deleted "id-8" ]))).
Proof.
  assert (H : uniqueWords [sampleSaved "casa" "id-8"]).
  { repeat constructor. rewrite list_elem_of_In. cbn. tauto. }
  split; [exact H|].
  exact (notebook_words_stay_unique Plain _ _ H).
Defined.

Lemma step_ids_NoDup rev s e :
  match e with
  | Saved uuid _ => ~ In uuid (ids (savedItems (ui s)))
  | _ => True
  end ->
  NoDup (ids (savedItems (ui s))) ->
  NoDup (ids (savedItems (ui (step rev s e)))).
Proof.
  intros Hf H. destruct e; cbn [step ui]; try exact H.
  - destruct (saveItem_cases uuid item (ui s)) as [-> | ->]; [exact H|].
    unfold ids. cbn. apply NoDup_cons. split; [|exact H].
    rewrite list_elem_of_In. exact Hf.
  - unfold deleteItem. destruct (ui s); cbn in *.
    clear Hf. induction savedItems0 as [|i nb IH]; cbn; [exact H|].
    apply NoDup_cons in H as [Hi H]. destruct (negb _); cbn; [|auto].
    apply NoDup_cons. split; [|auto].
    rewrite list_elem_of_In in *. intros Hin. apply Hi.
    unfold ids in *. apply in_map_iff in Hin as (j & Hj & Hin).
    apply filter_In in Hin as [Hin _]. apply in_map_iff. eauto.
  - destruct (handleSearch_begin (ui s)) as [[st1 req]|] eqn:Hb; [|exact H].
    apply handleSearch_begin_Some in Hb as (_ & -> & _). exact H.
  - destruct (inflight s !! k); [|exact H].
    cbn [ui]. rewrite handleSearch_settle_savedItems. exact H.
Qed.

(** Along a run in which every save draws a fresh id, the ids of the
    notebook stay distinct. *)
Theorem notebook_ids_stay_distinct (rev : Revision) (events : list Event) :
  forall s : Sys,
    NoDup (ids (savedItems (ui s))) ->
    freshUuids rev s events ->
    NoDup (ids (savedItems (ui (run rev s events)))).
Proof.
  unfold run. induction events as [|e events IH]; cbn; [auto|].
  intros s H [Hf Hrest]. apply IH; [|exact Hrest].
  apply step_ids_NoDup; assumption.
Qed.

Lemma notebook_ids_stay_distinct_witness :
  let s := mounted [sampleSaved "casa" "id-8"] in
  let events := [ Started; Saved "id-1" (sampleResult "gato" 1);
                  Deleted "id-8"; Saved "id-8" (sampleResult "pez" 2) ] in
  NoDup (ids (savedItems (ui s)))
  /\ freshUuids Plain s events
  /\ NoDup (ids (savedItems (ui (run Plain s events)))).
Proof.
  cbv zeta.
  assert (H : NoDup (ids (savedItems (ui (mounted [sampleSaved "casa" "id-8"]))))).
  { repeat constructor. rewrite list_elem_of_In. cbn. tauto. }
  assert (Hf : freshUuids Plain (mounted [sampleSaved "casa" "id-8"])
                 [ Started; Saved "id-1" (sampleResult "gato" 1);
                   Deleted "id-8"; Saved "id-8" (sampleResult "pez" 2) ]).
  { cbn. intuition discriminate. }
  split; [exact H|]. split; [exact Hf|].
  exact (notebook_ids_stay_distinct Plain _ _ H Hf).
Defined.

Lemma step_entries rev s e i :
  In i (savedItems (ui (step rev s e))) ->
  In i (savedItems (ui s))
  \/ exists uuid item, e = Saved uuid item /\ i = {| dict := item; id := uuid |}.
Proof.
  destruct e; cbn [step ui]; try (intros H; left; exact H).
  - destruct (saveItem_cases uuid item (ui s)) as [-> | ->]; [auto|].
    intros [<-|H]; [right; eauto|left; exact H].
  - unfold deleteItem. destruct (ui s); cbn. intros H.
    apply filter_In in H as [H _]. left. exact H.
  - destruct (handleSearch_begin (ui s)) as [[st1 req]|] eqn:Hb; [|auto].
    apply handleSearch_begin_Some in Hb as (_ & -> & _). auto.
  - destruct (inflight s !! k); [|auto].
    cbn [ui]. rewrite handleSearch_settle_savedItems. auto.
Qed.

(** Entries are never modified: after any run, each entry of the notebook
    is one that was loaded at the start or the exact copy, with its id,
    that one of the saves of the run made. *)
Theorem notebook_entries_never_modified (rev : Revision)
    (events : list Event) :
  forall (s : Sys) (i : SavedItem),
    In i (savedItems (ui (run rev s events))) ->
    In i (savedItems (ui s))
    \/ exists uuid item,
         In (Saved uuid item) events /\ i = {| dict := item; id := uuid |}.
Proof.
  unfold run. induction events as [|e events IH]; cbn [fold_left]; [auto|].
  intros s i H. destruct (IH _ _ H) as [H0|(uuid & item & Hin & ->)].
  - destruct (step_entries rev s e i H0) as [H1|(uuid & item & -> & ->)].
    + left. exact H1.
    + right. exists uuid, item. split; [left; reflexivity|reflexivity].
  - right. exists uuid, item. split; [right; exact Hin|reflexivity].
Qed.

Lemma notebook_entries_never_modified_witness :
  let events := [ Started; Saved "id-1" (sampleResult "gato" 1);
                  Reviewed (sampleSaved "casa" "id-8"); LogoClicked ] in
  In {| dict := sampleResult "gato" 1; id := "id-1" |}
     (savedItems (ui (run Plain (mounted [sampleSaved "casa" "id-8"]) events)))
  /\ (In {| dict := sampleResult "gato" 1; id := "id-1" |}
         [sampleSaved "casa" "id-8"]
      \/ exists uuid item,
           In (Saved uuid item) events
           /\ {| dict := sampleResult "gato" 1; id := "id-1" |}
              = {| dict := item; id := uuid |}).
Proof.
  cbv zeta.
  assert (H : In {| dict := sampleResult "gato" 1; id := "id-1" |}
                (savedItems
                   (ui (run Plain (mounted [sampleSaved "casa" "id-8"])
                          [ Started; Saved "id-1" (sampleResult "gato" 1);
                            Reviewed (sampleSaved "casa" "id-8");
                            LogoClicked ])))) by (left; reflexivity).
  split; [exact H|].
  exact (notebook_entries_never_modified Plain _ _ _ H).
Defined.

Lemma step_ui_spinnerMatches rev s e :
  spinnerMatches s -> spinnerMatches (step_ui rev s e).
Proof.
  unfold spinnerMatches, step_ui. destruct s as [st fl]. cbn [ui inflight].
  intros H.
  destruct e; cbn [enabled step ui inflight]; try exact H.
  - (* Saved *) rewrite saveItem_loading. exact H.
  - (* Submitted *)
    destruct (loading st) eqn:Hl; cbn [negb ui inflight].
    + rewrite Hl. exact H.
    + destruct fl as [|r [|r' fl]]; [|discriminate H|contradiction].
      destruct (handleSearch_begin st) as [[st1 req]|] eqn:Hb;
        cbn [ui inflight app].
      * apply handleSearch_begin_Some in Hb as (_ & -> & _). reflexivity.
      * exact Hl.
  - (* Settled *)
    destruct fl as [|r [|r' fl]]; [exact H| |contradiction].
    destruct k as [|k]; cbn; [reflexivity|].
    destruct k; cbn; exact H.
Qed.

(** Through the form, from the first render on, the spinner is on exactly
    while one lookup is in flight, and off exactly while none is: it is
    never left on, and no lookup is pending behind an enabled button. *)
Theorem spinner_follows_lookup (rev : Revision) (saved : list SavedItem)
    (events : list Event) :
  let s := run_ui rev (mounted saved) events in
  (loading (ui s) = true <-> length (inflight s) = 1)
  /\ (loading (ui s) = false <-> inflight s = []).
Proof.
  cbv zeta.
  assert (G : forall s, spinnerMatches s ->
                spinnerMatches (run_ui rev s events)).
  { unfold run_ui. induction events as [|e events IH]; cbn; [auto|].
    intros s H. apply IH, step_ui_spinnerMatches, H. }
  assert (H : spinnerMatches (run_ui rev (mounted saved) events))
    by (apply G; reflexivity).
  unfold spinnerMatches in H.
  destruct (inflight (run_ui rev (mounted saved) events)) as [|r [|r' fl]];
    [| |contradiction]; rewrite H; cbn; split; split; intros E;
    first [reflexivity | discriminate E].
Qed.

Lemma trimEnd_empty (s : string) :
  trimEnd s = "" <-> allWhiteSpace s = true.
Proof.
  induction s as [|c r IH]; cbn; [tauto|].
  destruct (isWhiteSpace c); cbn.
  - destruct (String.eqb_spec (trimEnd r) "") as [E|E].
    + split; [intros _; apply IH, E|reflexivity].
    + split; [discriminate|]. intros H. apply IH in H. contradiction.
  - split; discriminate.
Qed.

Lemma trimStart_cases (s : string) :
  (trimStart s = "" /\ allWhiteSpace s = true)
  \/ (exists c r, trimStart s = String c r /\ isWhiteSpace c = false
                  /\ allWhiteSpace s = false).
Proof.
  induction s as [|c r IH]; cbn; [auto|].
  destruct (isWhiteSpace c) eqn:E; cbn.
  - exact IH.
  - right. exists c, r. auto.
Qed.

Lemma trim_empty (s : string) : trim s = "" <-> allWhiteSpace s = true.
Proof.
  unfold trim. destruct (trimStart_cases s) as [[-> ->]|(c & r & -> & Hc & ->)].
  - cbn. tauto.
  - cbn. rewrite Hc. cbn. split; discriminate.
Qed.

(** A lookup starts exactly when the query has a code unit that is not
    white space.  It then sends the query as typed, not trimmed, with the
    two names of the selection, turns the spinner on and clears the
    current result; a blank query changes nothing and sends nothing. *)
Theorem lookup_starts_iff_query_not_blank (st : AppState) :
  (allWhiteSpace (query st) = true -> handleSearch_begin st = None)
  /\ (allWhiteSpace (query st) = false ->
      exists st1,
        handleSearch_begin st
        = Some (st1, {| reqQuery := query st;
                        reqNative := name (nativeLang st);
                        reqTarget := name (targetLang st) |})
        /\ loading st1 = true
        /\ currentResult st1 = None
        /\ mode st1 = SEARCH
        /\ savedItems st1 = savedItems st
        /\ query st1 = query st).
Proof.
  split; intros H.
  - apply handleSearch_begin_None, trim_empty, H.
  - destruct (handleSearch_begin st) as [[st1 req]|] eqn:Hb.
    + apply handleSearch_begin_Some in Hb as (_ & -> & ->).
      eexists. repeat split.
    + apply handleSearch_begin_None, trim_empty in Hb. congruence.
Qed.

Lemma lookup_starts_iff_query_not_blank_witness :
  allWhiteSpace (query (setQuery "  el gato " (initialState []))) = false
  /\ exists st1,
       handleSearch_begin (setQuery "  el gato " (initialState []))
       = Some (st1, {| reqQuery := "  el gato "; reqNative := "English";
                       reqTarget := "Spanish" |})
       /\ loading st1 = true.
Proof.
  split; [reflexivity|].
  destruct (proj2 (lookup_starts_iff_query_not_blank
                     (setQuery "  el gato " (initialState []))) eq_refl)
    as (st1 & E & Hl & _).
  exists st1. split; [exact E|exact Hl].
Defined.

(** The two selectors only ever select a language of [LANGUAGES]: the
    one with the chosen code when there is one, and otherwise the first of
    the list for the native language, the second for the target. *)
Theorem selectors_select_listed_languages (value : string) (st : AppState) :
  In (nativeLang (onChangeNative value st)) LANGUAGES
  /\ In (targetLang (onChangeTarget value st)) LANGUAGES
  /\ (In value (map code LANGUAGES) ->
      code (nativeLang (onChangeNative value st)) = value
      /\ code (targetLang (onChangeTarget value st)) = value)
  /\ (~ In value (map code LANGUAGES) ->
      name (nativeLang (onChangeNative value st)) = "English"
      /\ name (targetLang (onChangeTarget value st)) = "Chinese").
Proof.
  unfold onChangeNative, onChangeTarget.
  cbn [nativeLang targetLang setNativeLang setTargetLang].
  destruct (List.find (fun l => String.eqb (code l) value) LANGUAGES)
    as [l|] eqn:F; cbn [default].
  - apply find_some in F as [Hin Heq]. apply String.eqb_eq in Heq.
    split; [exact Hin|]. split; [exact Hin|]. split; [auto|].
    intros Hn. exfalso. apply Hn. apply in_map_iff. eauto.
  - split; [cbn; auto|]. split; [cbn; auto|]. split.
    + intros Hin. apply in_map_iff in Hin as (l & Hl & Hin).
      apply (find_none _ _ F) in Hin. apply String.eqb_neq in Hin.
      contradiction.
    + intros _. split; reflexivity.
Qed.

Lemma selectors_select_listed_languages_witness :
  In "pt" (map code LANGUAGES)
  /\ name (nativeLang (onChangeNative "pt" (initialState [])))
     = "Portuguese (European)"
  /\ ~ In "xx" (map code LANGUAGES)
  /\ name (targetLang (onChangeTarget "xx" (initialState []))) = "Chinese".
Proof.
  assert (H1 : In "pt" (map code LANGUAGES)) by (cbn; tauto).
  assert (H2 : ~ In "xx" (map code LANGUAGES)) by (cbn; intuition discriminate).
  split; [exact H1|]. split; [reflexivity|]. split; [exact H2|].
  exact (proj2 (proj2 (proj2 (proj2 (selectors_select_listed_languages "xx"
                                       (initialState [])))) H2)).
Defined.

Lemma resultCard_Some st r :
  hasStarted st = true -> mode st = SEARCH -> loading st = false ->
  currentResult st = Some r ->
  resultCard st
  = Some {| result := r;
            isSaved := existsb (fun i : SavedItem => String.eqb (word i) (word r))
                         (savedItems st);
            nativeLangName := if truthy (sourceLang r) then sourceLang r
                              else name (nativeLang st);
            targetLangName := if truthy (types.targetLang r)
                              then types.targetLang r
                              else name (targetLang st) |}.
Proof.
  intros Hs Hm Hl Hr. unfold resultCard. rewrite Hs, Hm, Hl, Hr. reflexivity.
Qed.

(** The bookmark of the card follows the notebook: saving the displayed
    result turns it on, whether or not an entry was added; and in a
    notebook with one entry per headword, deleting the entry of the
    displayed headword turns it off. *)
Theorem bookmark_follows_notebook (st : AppState) (props : ResultCardProps) :
  resultCard st = Some props ->
  (forall uuid,
      exists props',
        resultCard (saveItem uuid (result props) st) = Some props'
        /\ result props' = result props /\ isSaved props' = true)
  /\ (forall i : SavedItem,
        uniqueWords (savedItems st) -> In i (savedItems st) ->
        word i = word (result props) ->
        exists props',
          resultCard (deleteItem (id i) st) = Some props'
          /\ result props' = result props /\ isSaved props' = false).
Proof.
  unfold resultCard. destruct (hasStarted st) eqn:Hs; [|discriminate].
  destruct (mode st) eqn:Hm; try discriminate.
  destruct (currentResult st) as [r|] eqn:Hr; [|discriminate].
  destruct (loading st) eqn:Hl; [discriminate|]. cbn [negb].
  intros [= <-]. cbn [result]. split.
  - intros uuid. eexists. split.
    + apply resultCard_Some.
      * unfold saveItem. destruct (existsb _ _); [exact Hs|]. exact Hs.
      * unfold saveItem. destruct (existsb _ _); [exact Hm|]. exact Hm.
      * rewrite saveItem_loading. exact Hl.
      * unfold saveItem. destruct (existsb _ _); [exact Hr|]. exact Hr.
    + cbn. split; [reflexivity|]. apply some_word_In, saveItem_word_In.
  - intros i Hu Hin Hw. eexists. split.
    + apply resultCard_Some; unfold deleteItem; destruct st; cbn in *;
        eassumption.
    + cbn. split; [reflexivity|].
      destruct (existsb _ _) eqn:Ex; [|reflexivity]. exfalso.
      apply existsb_exists in Ex as (j & Hj & Hjw). apply String.eqb_eq in Hjw.
      unfold deleteItem in Hj. destruct st; cbn in *.
      apply filter_In in Hj as [Hj Hne].
      assert (j = i).
      { clear Hne Hr. rewrite <- Hw in Hjw. unfold uniqueWords in Hu.
        induction savedItems0 as [|a nb IH]; [destruct Hin|].
        rewrite words_cons in Hu. apply NoDup_cons in Hu as [Ha Hu].
        rewrite list_elem_of_In in Ha.
        destruct Hin as [->|Hin], Hj as [->|Hj]; auto.
        - exfalso. apply Ha. rewrite <- Hjw. apply in_map_iff. eauto.
        - exfalso. apply Ha. rewrite Hjw. apply in_map_iff. eauto. }
      subst j. rewrite String.eqb_refl in Hne. discriminate.
Qed.

Lemma bookmark_follows_notebook_witness :
  let st :=
    setCurrentResult (Some (sampleResult "gato" 5))
      (setHasStarted true (initialState [sampleSaved "gato" "id-9"])) in
  exists props,
    resultCard st = Some props
    /\ isSaved props = true
    /\ uniqueWords (savedItems st)
    /\ exists props',
         resultCard (deleteItem "id-9" st) = Some props'
         /\ result props' = result props /\ isSaved props' = false.
Proof.
  cbv zeta.
  set (st := setCurrentResult (Some (sampleResult "gato" 5))
               (setHasStarted true (initialState [sampleSaved "gato" "id-9"]))).
  assert (Hu : uniqueWords (savedItems st)).
  { repeat constructor. rewrite list_elem_of_In. cbn. tauto. }
  eexists. split; [reflexivity|]. split; [reflexivity|]. split; [exact Hu|].
  exact (proj2 (bookmark_follows_notebook st _ eq_refl)
           (sampleSaved "gato" "id-9") Hu (or_introl eq_refl) eq_refl).
Defined.

(** The card of a looked-up result is given the language names of the
    request, whatever the selectors show by then, as long as those names
    are not empty. *)
Theorem card_uses_request_languages (rev : Revision) (st0 st1 st2 : AppState)
    (req : Request) (textData : TextData) (image : option string) (now : Z) :
  handleSearch_begin st0 = Some (st1, req) ->
  name (nativeLang st0) <> "" -> name (targetLang st0) <> "" ->
  hasStarted st2 = true -> mode st2 = SEARCH ->
  exists props,
    resultCard
      (handleSearch_settle rev req (Fulfilled textData) (Fulfilled image) now st2)
    = Some props
    /\ nativeLangName props = name (nativeLang st0)
    /\ targetLangName props = name (targetLang st0)
    /\ word (result props) = td_word textData.
Proof.
  intros Hb Hn Ht Hs Hm.
  apply handleSearch_begin_Some in Hb as (_ & _ & ->).
  eexists. split.
  - apply resultCard_Some; [exact Hs|exact Hm|reflexivity|reflexivity].
  - cbn. rewrite !truthy_nonempty by assumption. auto.
Qed.

(** A lookup that fails sets no result.  The result shown before the
    lookup was cleared when it started; when the promises settle, in
    whatever state the component is by then, the failure leaves the
    current result as it is at that moment: none, and no card, unless the
    user has opened another result in between.  The spinner is off, one
    notice was shown, and the notebook is untouched. *)
Theorem failed_lookup_sets_no_result (rev : Revision) (st st1 st2 : AppState)
    (req : Request) (error : JsError) (imagePromise : settled (option string))
    (now : Z) :
  handleSearch_begin st = Some (st1, req) ->
  let st' := handleSearch_settle rev req (Rejected error) imagePromise now st2 in
  currentResult st1 = None
  /\ savedItems st1 = savedItems st
  /\ currentResult st' = currentResult st2
  /\ loading st' = false
  /\ length (alerts st') = S (length (alerts st2))
  /\ savedItems st' = savedItems st2
  /\ (currentResult st2 = None ->
      currentResult st' = None /\ resultCard st' = None).
Proof.
  intros Hb. apply handleSearch_begin_Some in Hb as (_ & -> & _). cbv zeta.
  unfold handleSearch_settle. cbn [Promise_all].
  destruct (handleSearch_catch_cases rev error st2) as (Hc & _ & Ha).
  assert (Hr : currentResult
                 (setLoading false (handleSearch_catch rev error st2))
               = currentResult st2) by exact Hc.
  split; [reflexivity|]. split; [reflexivity|]. split; [exact Hr|].
  split; [reflexivity|]. split; [|split].
  - cbn [alerts setLoading].
    destruct Ha as [-> | (_ & -> & _)]; reflexivity.
  - pose proof (handleSearch_settle_savedItems rev req (Rejected error)
                  imagePromise now st2) as Hs.
    unfold handleSearch_settle in Hs. cbn [Promise_all] in Hs. exact Hs.
  - intros H0. rewrite H0 in Hr. split; [exact Hr|].
    unfold resultCard. rewrite Hr.
    destruct (hasStarted _); [|reflexivity]. destruct (mode _); reflexivity.
Qed.

Lemma failed_lookup_sets_no_result_witness :
  let st := setCurrentResult (Some (sampleResult "casa" 1))
              (setQuery "gato" (setHasStarted true (initialState []))) in
  let st1 := setCurrentResult None (setMode SEARCH (setLoading true st)) in
  let req := {| reqQuery := "gato"; reqNative := "English";
                reqTarget := "Spanish" |} in
  handleSearch_begin st = Some (st1, req)
  /\ currentResult st = Some (sampleResult "casa" 1)
  /\ currentResult (setQuery "perro" st1) = None
  /\ currentResult
       (handleSearch_settle WithSettings req
          (Rejected {| message := Some "503" |}) (Fulfilled None) 9
          (setQuery "perro" st1))
     = None.
Proof.
  cbv zeta.
  set (st := setCurrentResult (Some (sampleResult "casa" 1))
               (setQuery "gato" (setHasStarted true (initialState [])))).
  set (st1 := setCurrentResult None (setMode SEARCH (setLoading true st))).
  set (req := {| reqQuery := "gato"; reqNative := "English";
                 reqTarget := "Spanish" |}).
  assert (Hb : handleSearch_begin st = Some (st1, req)) by reflexivity.
  assert (H0 : currentResult (setQuery "perro" st1) = None) by reflexivity.
  split; [exact Hb|]. split; [reflexivity|]. split; [exact H0|].
  destruct (failed_lookup_sets_no_result WithSettings st st1
              (setQuery "perro" st1) req {| message := Some "503" |}
              (Fulfilled None) 9 Hb) as (_ & _ & _ & _ & _ & _ & Hn).
  exact (proj1 (Hn H0)).
Defined.

(** The same failure after the user has opened a saved entry while the
    lookup was loading: the entry stays on display. *)
Example failed_lookup_keeps_reviewed_entry :
  let casa := sampleSaved "casa" "id-8" in
  let s :=
    run_ui WithSettings (mounted [casa])
      [ Started; QueryTyped "gato"; Submitted; ModeOpened NOTEBOOK;
        Reviewed casa;
        Settled 0 (Fulfilled tt) (Rejected {| message := Some "503" |})
          (Fulfilled []) 9 ] in
  currentResult (ui s) = Some (dict casa)
  /\ loading (ui s) = false
  /\ alerts (ui s) = [oops]
  /\ exists props, resultCard (ui s) = Some props /\ result props = dict casa.
Proof.
  cbv zeta. split; [vm_compute; reflexivity|].
  split; [vm_compute; reflexivity|]. split; [vm_compute; reflexivity|].
  eexists. split; vm_compute; reflexivity.
Qed.

Lemma card_uses_request_languages_witness :
  let st0 := setQuery "gato" (setHasStarted true (initialState [])) in
  exists st1 req,
    handleSearch_begin st0 = Some (st1, req)
    /\ name (nativeLang st0) <> "" /\ name (targetLang st0) <> ""
    /\ exists props,
         resultCard
           (handleSearch_settle Plain req (Fulfilled (sampleText "gato"))
              (Fulfilled None) 7 (onChangeTarget "fr" st1))
         = Some props
         /\ nativeLangName props = "English"
         /\ targetLangName props = "Spanish"
         /\ word (result props) = "gato".
Proof.
  cbv zeta. eexists _, _. split; [reflexivity|].
  assert (Hn : name (nativeLang (setQuery "gato"
                 (setHasStarted true (initialState [])))) <> "")
    by discriminate.
  assert (Ht : name (targetLang (setQuery "gato"
                 (setHasStarted true (initialState [])))) <> "")
    by discriminate.
  split; [exact Hn|]. split; [exact Ht|].
  refine (card_uses_request_languages Plain
            (setQuery "gato" (setHasStarted true (initialState []))) _ _ _
            (sampleText "gato") None 7 _ Hn Ht _ _); reflexivity.
Defined.

End Component.

(** ** More on the collaborators' wrappers *)

Section Service.

Import geminiService NotebookView.

Lemma firstInlineData_None (parts : list Part) :
  firstInlineData parts = None <-> Forall (fun p => inlineData p = None) parts.
Proof.
  induction parts as [|p parts IH]; cbn.
  - split; [constructor|reflexivity].
  - destruct (inlineData p) eqn:E.
    + split; [discriminate|]. intros H. apply Forall_cons in H as [H _].
      congruence.
    + rewrite IH. split; [intros H; constructor; assumption|].
      intros H. apply Forall_cons in H as [_ H]. exact H.
Qed.

Lemma firstInlineData_first (pre post : list Part) (p : Part) (d : InlineData) :
  Forall (fun q => inlineData q = None) pre -> inlineData p = Some d ->
  firstInlineData (pre ++ p :: post) = Some ("data:image/png;base64," ++ data d).
Proof.
  intros Hpre Hp. induction Hpre as [|q pre Hq _ IH]; cbn.
  - rewrite Hp. reflexivity.
  - rewrite Hq. exact IH.
Qed.

(** Once the client exists, [generateConceptImage] never rejects.  Its
    image is the data of the first part that carries inline data, behind
    the data-URI prefix; it is absent exactly when the request threw or no
    part carried inline data. *)
Theorem concept_image_is_first_inline_part (u : unit)
    (response : settled (list Part)) :
  exists image,
    generateConceptImage (Fulfilled u) response = Fulfilled image
    /\ (image = None <-> illustrationFailed response)
    /\ (forall pre p d post,
          response = Fulfilled (pre ++ p :: post)%list ->
          Forall (fun q => inlineData q = None) pre ->
          inlineData p = Some d ->
          image = Some ("data:image/png;base64," ++ data d)).
Proof.
  destruct response as [parts|e]; cbn.
  - exists (firstInlineData parts). split; [reflexivity|].
    split; [apply firstInlineData_None|].
    intros pre p d post [= ->] Hpre Hp. apply firstInlineData_first; assumption.
  - exists None. split; [reflexivity|]. split; [tauto|]. discriminate.
Qed.

(** Once the client exists, [generateSpeech] never rejects, and it looks
    at the first part only: there is audio exactly when that part carries
    inline data that is not empty, whatever the later parts hold. *)
Theorem speech_is_first_part_only (u : unit) (response : settled (list Part)) :
  exists audio,
    generateSpeech (Fulfilled u) response = Fulfilled audio
    /\ forall b,
         audio = Some b <->
         b <> "" /\ exists p rest,
                     response = Fulfilled (p :: rest)
                     /\ inlineData p = Some {| data := b |}.
Proof.
  destruct response as [[|p rest]|e]; cbn.
  - exists None. split; [reflexivity|]. intros b. split; [discriminate|].
    intros (_ & p & rest & [=] & _).
  - destruct (inlineData p) as [[d]|] eqn:E; cbn.
    + unfold truthy. destruct (String.eqb_spec d "") as [->|Hd]; cbn.
      * exists None. split; [reflexivity|]. intros b. split; [discriminate|].
        intros (Hb & p' & rest' & [= <- <-] & Hp). congruence.
      * exists (Some d). split; [reflexivity|]. intros b. split.
        -- intros [= <-]. split; [exact Hd|]. eauto.
        -- intros (Hb & p' & rest' & [= <- <-] & Hp). congruence.
    + exists None. split; [reflexivity|]. intros b. split; [discriminate|].
      intros (_ & p' & rest' & [= <- <-] & Hp). congruence.
  - exists None. split; [reflexivity|]. intros b. split; [discriminate|].
    intros (_ & p & rest & [=] & _).
Qed.

Lemma prefix_app_cancel (a x y : string) :
  String.prefix (a ++ x) (a ++ y) = String.prefix x y.
Proof.
  induction a as [|c a IH]; simpl; [reflexivity|].
  destruct (Ascii.ascii_dec c c); [exact IH|contradiction].
Qed.

Lemma toLowerCase_app (a b : string) :
  toLowerCase (a ++ b) = toLowerCase a ++ toLowerCase b.
Proof. induction a as [|c a IH]; simpl; [reflexivity|]. rewrite IH. reflexivity. Qed.

(** The prompt of [lookupWord] carries the text and the native language
    between quotes, and the instruction for the target language: the name
    between quotes, or for a Portuguese target the European Portuguese
    instruction instead. *)
Theorem lookup_prompt_threads_request (text sourceLang targetLang : string) :
  let prompt := lookupWord_prompt text sourceLang targetLang in
  includes prompt ("    Analyze the text " ++ dq ++ text ++ dq ++ ". ") = true
  /\ includes prompt
       ("    The user's native language is " ++ dq ++ sourceLang ++ dq ++ ".")
     = true
  /\ includes prompt ("    " ++ langInstruction targetLang ++ nl) = true
  /\ (isPortuguese targetLang = true ->
      langInstruction targetLang = europeanPortuguese)
  /\ (isPortuguese targetLang = false ->
      langInstruction targetLang
      = "The target language is " ++ dq ++ targetLang ++ dq ++ ".").
Proof.
  cbv zeta. unfold lookupWord_prompt. split; [|split; [|split; [|split]]].
  - apply includes_app_r, includes_prefix.
    rewrite !prefix_app_cancel. apply prefix_app.
  - do 7 apply includes_app_r. apply includes_prefix.
    rewrite !prefix_app_cancel. apply prefix_app.
  - do 13 apply includes_app_r. apply includes_prefix.
    rewrite !prefix_app_cancel. apply prefix_app.
  - intros H. unfold langInstruction. rewrite H. reflexivity.
  - intros H. unfold langInstruction. rewrite H. reflexivity.
Qed.

(** The Portuguese target is recognised whatever the case of its letters
    and wherever the word stands in the name; the request then carries the
    European Portuguese instruction. *)
Theorem portuguese_is_detected_in_any_case (a p b : string)
    (text sourceLang : string) :
  toLowerCase p = "portuguese" ->
  isPortuguese (a ++ p ++ b) = true
  /\ includes (lookupWord_prompt text sourceLang (a ++ p ++ b))
       europeanPortuguese = true.
Proof.
  intros Hp.
  assert (H : isPortuguese (a ++ p ++ b) = true).
  { unfold isPortuguese. rewrite !toLowerCase_app, Hp. apply includes_middle. }
  split; [exact H|].
  unfold lookupWord_prompt, langInstruction. rewrite H.
  do 14 apply includes_app_r. apply includes_prefix, prefix_app.
Qed.

Lemma portuguese_is_detected_in_any_case_witness :
  toLowerCase "PORTUGUESE" = "portuguese"
  /\ isPortuguese ("Brazilian " ++ "PORTUGUESE" ++ "") = true
  /\ isPortuguese "Spanish" = false.
Proof.
  split; [reflexivity|]. split; [|reflexivity].
  exact (proj1 (portuguese_is_detected_in_any_case "Brazilian " "PORTUGUESE" ""
                  "gato" "English" eq_refl)).
Defined.

(** A story that [weaveStory] resolves to is never the empty text. *)
Theorem story_is_never_empty (ai : settled unit) (items : list SavedItem)
    (nativeLang : string) (response : settled (option string)) (story : string) :
  resume (weaveStory ai items nativeLang) response = Fulfilled story ->
  story <> "".
Proof.
  unfold weaveStory. destruct ai as [u|e]; cbn; [|discriminate].
  destruct response as [[t|]|e]; cbn; try discriminate.
  - unfold truthy. destruct (String.eqb_spec t "") as [->|Ht]; cbn.
    + intros [= <-]. discriminate.
    + intros [= <-]. exact Ht.
  - intros [= <-]. discriminate.
Qed.

Lemma story_is_never_empty_witness :
  resume (weaveStory (Fulfilled tt) (sampleNotebook 2) "English")
    (Fulfilled (Some ""))
  = Fulfilled "Could not generate story."
  /\ "Could not generate story." <> "".
Proof.
  split; [reflexivity|].
  exact (story_is_never_empty (Fulfilled tt) (sampleNotebook 2) "English"
           (Fulfilled (Some "")) _ eq_refl).
Defined.



End Service.

(** ** More on the chat session *)

Section ChatMore.

Import ResultCard geminiService.

Lemma map_message_id (history : list ChatMessage) :
  map (fun h => {| role := role h; text := text h |}) history = history.
Proof.
  induction history as [|[r t] history IH]; cbn; [reflexivity|].
  rewrite IH. reflexivity.
Qed.

(** What a send asks of the chat collaborator: the message typed, as it
    was typed, and as history the two priming turns followed by the
    transcript shown before the send, which does not hold the message.
    The first priming turn quotes the word and names the two languages
    given to the card. *)
Theorem chat_request_carries_transcript (ai : settled unit)
    (result : DictionaryResult) (nativeLangName targetLangName : string)
    (st : State) (req : ChatRequest) :
  issued (snd (handleChatSubmit ai result nativeLangName targetLangName st))
  = Some req ->
  chat_message req = chatInput st
  /\ allWhiteSpace (chatInput st) = false
  /\ exists priming1 priming2,
       chat_history req = priming1 :: priming2 :: chatHistory st
       /\ role priming1 = user /\ role priming2 = model
       /\ includes (text priming1) (dq ++ word result ++ dq) = true
       /\ includes (text priming1)
            (" (Target: " ++ targetLangName ++ ", Native: " ++ nativeLangName
             ++ ")") = true.
Proof.
  unfold handleChatSubmit.
  destruct (truthy (trim (chatInput st))) eqn:Ht; cbn [negb snd issued];
    [|discriminate].
  destruct ai as [u|e]; cbn [getChatResponse issued]; [|discriminate].
  intros [= <-]. cbn [chat_message chat_history text].
  split; [reflexivity|]. split.
  - destruct (allWhiteSpace (chatInput st)) eqn:E; [|reflexivity].
    apply trim_empty in E. rewrite E in Ht. discriminate.
  - unfold getChatResponse_history. rewrite map_message_id.
    eexists _, _. split; [reflexivity|].
    split; [reflexivity|]. split; [reflexivity|]. cbn [text]. split.
    + apply includes_app_r, includes_prefix.
      rewrite !prefix_app_cancel. apply prefix_app.
    + do 4 apply includes_app_r. apply includes_prefix.
      rewrite !prefix_app_cancel. reflexivity.
Qed.

Lemma chat_request_carries_transcript_witness :
  let st := setChatInput " why? "
              (setChatHistory
                 (fun _ => [ {| role := user; text := "hola" |};
                             {| role := model; text := "Hola!" |} ])
                 initialState) in
  exists req,
    issued (snd (handleChatSubmit (Fulfilled tt) (sampleResult "gato" 1)
                   "English" "Spanish" st)) = Some req
    /\ chat_message req = " why? "
    /\ length (chat_history req) = 4.
Proof.
  cbv zeta. eexists. split; [reflexivity|].
  destruct (chat_request_carries_transcript (Fulfilled tt)
              (sampleResult "gato" 1) "English" "Spanish"
              (setChatInput " why? "
                 (setChatHistory
                    (fun _ => [ {| role := user; text := "hola" |};
                                {| role := model; text := "Hola!" |} ])
                    initialState)) _ eq_refl)
    as (Hm & _ & p1 & p2 & Hh & _).
  split; [exact Hm|]. rewrite Hh. reflexivity.
Defined.

(** The transcript only grows: a session appends to what was there and
    changes none of it; and a session that starts with the form enabled
    ends with the form enabled, whatever failed on the way. *)
Theorem chat_transcript_is_append_only (result : DictionaryResult)
    (nativeLangName targetLangName : string) (sends : list Send) :
  forall st : State,
    (exists added,
        chatHistory (session result nativeLangName targetLangName sends st)
        = (chatHistory st ++ added)%list)
    /\ (chatLoading st = false ->
        chatLoading (session result nativeLangName targetLangName sends st)
        = false).
Proof.
  unfold session. induction sends as [|s sends IH]; intros st; cbn [fold_left].
  - split; [exists []; rewrite app_nil_r; reflexivity|auto].
  - destruct (IH (sendOnce result nativeLangName targetLangName s st))
      as [[added Ha] Hl].
    split.
    + rewrite Ha, send_chatHistory, <- app_assoc. eauto.
    + intros H0. apply Hl. clear - H0.
      unfold sendOnce, send, handleChatSubmit. cbn [chatInput setChatInput].
      destruct (negb (truthy (trim (input s)))); cbn; [exact H0|].
      destruct (client s); cbn; reflexivity.
Qed.

Lemma chat_transcript_is_append_only_witness :
  chatLoading initialState = false
  /\ chatLoading
       (session (sampleResult "gato" 1) "English" "Spanish"
          [ {| input := "why?"; client := Fulfilled tt;
               reply := Rejected {| message := Some "network" |} |};
            {| input := "   "; client := Fulfilled tt;
               reply := Fulfilled "unused" |} ]
          initialState) = false.
Proof.
  split; [reflexivity|].
  exact (proj2 (chat_transcript_is_append_only (sampleResult "gato" 1)
                  "English" "Spanish" _ initialState) eq_refl).
Defined.

End ChatMore.

(** ** Audio *)

Section Audio.

Import geminiService ResultCard.

Lemma pair_induction {A : Type} (P : list A -> Prop) :
  P [] -> (forall a, P [a]) -> (forall a b l, P l -> P (a :: b :: l)) ->
  forall l, P l.
Proof.
  intros H0 H1 H2. fix IH 1. intros [|a [|b l]]; [exact H0|apply H1|].
  apply H2, IH.
Qed.

Lemma int16Array_length (bytes : list N) :
  length (audioService.int16Array bytes) = length bytes / 2.
Proof.
  induction bytes as [| a | a b l IH] using pair_induction; [reflexivity..|].
  cbn [audioService.int16Array length]. rewrite IH.
  change (S (S (length l))) with (1 * 2 + length l).
  rewrite Nat.div_add_l by lia. reflexivity.
Qed.

Lemma int16_range (lo hi : N) :
  (lo < 256)%N -> (hi < 256)%N ->
  (-32768 <= audioService.int16 lo hi <= 32767)%Z.
Proof.
  intros Hlo Hhi. unfold audioService.int16.
  destruct (Z.ltb_spec (Z.of_N lo + 256 * Z.of_N hi) 32768); lia.
Qed.

Lemma int16Array_range (bytes : list N) :
  Forall (fun b => (b < 256)%N) bytes ->
  Forall (fun v => (-32768 <= v <= 32767)%Z) (audioService.int16Array bytes).
Proof.
  induction bytes as [| a | a b l IH] using pair_induction;
    [constructor..|].
  intros H. apply Forall_cons in H as [Ha H]. apply Forall_cons in H as [Hb H].
  cbn [audioService.int16Array]. constructor; [apply int16_range; assumption|apply IH, H].
Qed.

Lemma decodeBase64_bytes (base64 : string) (bytes : list N) :
  audioService.decodeBase64 base64 = Fulfilled bytes ->
  Forall (fun b => (b < 256)%N) bytes.
Proof.
  unfold audioService.decodeBase64. destruct (audioService.atob base64) as [bin|e]; [|discriminate].
  intros [= <-]. apply Forall_forall. intros b Hb.
  apply list_elem_of_In, in_map_iff in Hb as (c & <- & _).
  apply N.mod_lt. discriminate.
Qed.

Lemma sample_in_range (v : Z) :
  (-32768 <= v <= 32767)%Z -> inSampleRange (QArith_base.Qmake v 32768).
Proof.
  intros H. unfold inSampleRange, QArith_base.Qle, QArith_base.Qlt. cbn. lia.
Qed.

(** Whatever [playAudioData] starts is a buffer of one channel at 24000
    Hz, with one frame for every two decoded bytes (a last odd byte is
    left out), and all its samples lie from -1 up to 1. *)
Theorem played_audio_is_well_formed (ctx : settled audioService.AudioContext)
    (base64Audio : string) (audioBuffer : audioService.AudioBuffer) :
  audioService.playAudioData ctx base64Audio = Fulfilled (Some audioBuffer) ->
  exists rawBytes,
    audioService.decodeBase64 base64Audio = Fulfilled rawBytes
    /\ audioService.numberOfChannels audioBuffer = 1
    /\ audioService.sampleRate audioBuffer = 24000%Z
    /\ length (audioService.channelData audioBuffer) = length rawBytes / 2
    /\ Forall inSampleRange (audioService.channelData audioBuffer).
Proof.
  unfold audioService.playAudioData, audioService.playAudioData_try, audioService.pcmToAudioBuffer.
  destruct ctx as [c|e]; [|discriminate].
  destruct (if audioService.suspended c then audioService.resume c else Fulfilled tt); [|discriminate].
  destruct (audioService.decodeBase64 base64Audio) as [rawBytes|e] eqn:Hd; [|discriminate].
  destruct (audioService.createBuffer c 1 _ 24000%Z); [|discriminate].
  destruct (audioService.start c _); [|discriminate].
  intros [= <-]. exists rawBytes. cbn.
  split; [reflexivity|]. split; [reflexivity|]. split; [reflexivity|]. split.
  - rewrite length_map. apply int16Array_length.
  - apply Forall_forall. intros q Hq.
    apply list_elem_of_In, in_map_iff in Hq as (v & <- & Hv).
    apply sample_in_range.
    pose proof (int16Array_range rawBytes (decodeBase64_bytes _ _ Hd)) as Hall.
    rewrite Forall_forall in Hall. apply Hall, list_elem_of_In, Hv.
Qed.

Lemma played_audio_is_well_formed_witness :
  let ctx := Fulfilled sampleContext in
  exists audioBuffer,
    audioService.playAudioData ctx "AID/fwE=" = Fulfilled (Some audioBuffer)
    /\ audioService.decodeBase64 "AID/fwE=" = Fulfilled [0; 128; 255; 127; 1]%N
    /\ length (audioService.channelData audioBuffer) = 2
    /\ Forall inSampleRange (audioService.channelData audioBuffer).
Proof.
  cbv zeta. eexists. split; [reflexivity|]. split; [reflexivity|].
  destruct (played_audio_is_well_formed
              (Fulfilled sampleContext)
              "AID/fwE=" _ eq_refl) as (raw & _ & _ & _ & _ & Hr).
  split; [reflexivity|exact Hr].
Defined.

(** [playAudioData] never rejects: when the context cannot be had or
    resumed, when the text is not base64, when the buffer cannot be made
    or started, nothing is played and nothing is thrown. *)
Theorem audio_errors_are_swallowed (ctx : settled audioService.AudioContext)
    (base64Audio : string) :
  exists started,
    audioService.playAudioData ctx base64Audio = Fulfilled started
    /\ (forall e, ctx = Rejected e -> started = None)
    /\ (forall c e, ctx = Fulfilled c -> audioService.suspended c = true ->
                    audioService.resume c = Rejected e -> started = None)
    /\ (forall e, audioService.atob base64Audio = Rejected e -> started = None)
    /\ (forall c, ctx = Fulfilled c ->
                  (forall frames rate, exists e,
                      audioService.createBuffer c 1 frames rate = Rejected e) ->
                  started = None).
Proof.
  unfold audioService.playAudioData.
  destruct (audioService.playAudioData_try ctx base64Audio) as [b|e0] eqn:E.
  - exists (Some b). split; [reflexivity|].
    unfold audioService.playAudioData_try, audioService.pcmToAudioBuffer, audioService.decodeBase64 in E.
    split; [intros e ->; discriminate E|].
    split; [intros c e -> Hs Hr; rewrite Hs, Hr in E; discriminate E|].
    split.
    + intros e Ha. destruct ctx as [c|]; [|discriminate E].
      destruct (if audioService.suspended c then audioService.resume c else Fulfilled tt);
        [|discriminate E].
      rewrite Ha in E. discriminate E.
    + intros c -> Hc.
      destruct (if audioService.suspended c then audioService.resume c else Fulfilled tt);
        [|discriminate E].
      destruct (audioService.atob base64Audio) as [bin|]; [|discriminate E].
      destruct (Hc (length (audioService.int16Array (map (fun c => (c mod 256)%N) bin)))
                  24000%Z) as [e He].
      rewrite He in E. discriminate E.
  - exists None. split; [reflexivity|]. repeat split; reflexivity.
Qed.

Lemma audio_errors_are_swallowed_witness :
  audioService.atob "not base64!" = Rejected audioService.InvalidCharacterError
  /\ audioService.playAudioData
       (Fulfilled sampleContext)
       "not base64!" = Fulfilled None.
Proof.
  split; [reflexivity|].
  destruct (audio_errors_are_swallowed
              (Fulfilled sampleContext)
              "not base64!") as (started & E & _ & _ & Ha & _).
  rewrite E. rewrite (Ha _ eq_refl). reflexivity.
Defined.

(** While something is playing, a second request to play does nothing
    and asks for no speech.  Otherwise the cell is set to the id at once
    and is cleared at the end, whatever the speech request and the
    playback come to; audio is started only from the speech that was
    returned. *)
Theorem play_audio_guard_and_release (ai : settled unit)
    (ctx : settled audioService.AudioContext) (text id : string) :
  (forall p, p <> "" ->
     let h := handlePlayAudio ai ctx text id (Some p) in
     issued (snd h) = None
     /\ forall response cell,
          fst h cell = cell /\ resume (snd h) response cell = (cell, None))
  /\ (let h := handlePlayAudio ai ctx text id None in
      (forall cell, fst h cell = Some id)
      /\ (forall u, ai = Fulfilled u -> issued (snd h) = Some text)
      /\ (forall response cell, fst (resume (snd h) response cell) = None)
      /\ (forall response cell audioBuffer,
            snd (resume (snd h) response cell) = Some audioBuffer ->
            exists b,
              generateSpeech ai response = Fulfilled (Some b)
              /\ audioService.playAudioData ctx b = Fulfilled (Some audioBuffer))).
Proof.
  split.
  - intros p Hp. cbv zeta. unfold handlePlayAudio.
    rewrite (truthy_nonempty p Hp). cbn. auto.
  - cbv zeta. unfold handlePlayAudio. cbn [fst snd].
    split; [reflexivity|]. split; [intros u ->; reflexivity|].
    split.
    + intros response cell. destruct ai; reflexivity.
    + intros response cell audioBuffer.
      destruct ai as [u|e]; cbn [resume snd]; [|discriminate].
      destruct (generateSpeech (Fulfilled u) response) as [[b|]|e];
        [|discriminate..].
      destruct (truthy b); [|discriminate].
      destruct (audioService.playAudioData ctx b) as [started|e] eqn:Ep; [|discriminate].
      intros ->. exists b. split; [reflexivity|exact Ep].
Qed.

Lemma play_audio_guard_and_release_witness :
  "main" <> ""
  /\ issued (snd (handlePlayAudio (Fulfilled tt) (Rejected {| message := None |})
                    "gato" "ex-0" (Some "main"))) = None.
Proof.
  assert (H : "main" <> "") by discriminate.
  split; [exact H|].
  exact (proj1 (proj1 (play_audio_guard_and_release (Fulfilled tt)
                         (Rejected {| message := None |}) "gato" "ex-0")
                  "main" H)).
Defined.

End Audio.

(** ** The settings, saved and loaded again *)

Section Settings.

Import App.

Lemma units_app (a b : string) :
  JSON.units (a ++ b) = (JSON.units a ++ JSON.units b)%list.
Proof.
  unfold JSON.units. induction a as [|c a IH]; simpl; [reflexivity|].
  f_equal. exact IH.
Qed.

Lemma units_inj (a b : string) : JSON.units a = JSON.units b -> a = b.
Proof.
  unfold JSON.units. revert b.
  induction a as [|c a IH]; intros [|d b]; simpl; try discriminate;
    [reflexivity|].
  intros [= Hc Hr]. f_equal; [|apply IH, Hr].
  rewrite <- (ascii_N_embedding c), <- (ascii_N_embedding d), Hc. reflexivity.
Qed.

(** Reading back what [JSON.stringify] wrote between the quotes. *)
Lemma parse_chars_escape (s : string) :
  forall rest : list N,
    JSON.parse_chars (JSON.units (JSON.escape s) ++ 34%N :: rest)
    = Some (JSON.units s, rest).
Proof.
  induction s as [|c r IH]; intros rest; [reflexivity|].
  change (JSON.escape (String c r)) with (JSON.escapeUnit c ++ JSON.escape r).
  rewrite units_app, <- app_assoc.
  change (JSON.units (String c r)) with (N_of_ascii c :: JSON.units r).
  destruct c as [[] [] [] [] [] [] [] []];
    simpl; rewrite IH; reflexivity.
Qed.

Lemma units_stringifySettings (settings : AppSettings) :
  JSON.units (stringifySettings settings)
  = (123 :: 34 :: JSON.units (JSON.escape "apiKey")
       ++ 34 :: 58 :: 34 :: JSON.units (JSON.escape (apiKey settings))
       ++ 34 :: 44 :: 34 :: JSON.units (JSON.escape "textModel")
       ++ 34 :: 58 :: 34 :: JSON.units (JSON.escape (textModel settings))
       ++ [34; 125])%N%list.
Proof.
  unfold stringifySettings, JSON.quote. rewrite !units_app.
  cbn [JSON.units list_ascii_of_string map N_of_ascii app].
  rewrite <- !app_assoc. reflexivity.
Qed.

Lemma parse_stringifySettings (settings : AppSettings) :
  JSON.parse (stringifySettings settings) = Fulfilled (settingsValue settings).
Proof.
  unfold JSON.parse. rewrite units_stringifySettings.
  match goal with
  | |- context [JSON.parse_value ?fuel _] =>
      assert (Hf : exists k, fuel = S (S (S (S k))))
        by (exists (fuel - 4); cbn [length]; lia);
      destruct Hf as [k ->]
  end.
  do 4 (cbn [JSON.parse_value JSON.parse_members JSON.skip_ws
              N.eqb Pos.eqb orb];
        rewrite parse_chars_escape).
  reflexivity.
Qed.

(** Settings that are saved are found again when the component is
    constructed the next time: the stored text parses, to the object with
    the same two strings (which determines the settings), whatever code
    units the strings hold.  Saving leaves the stored notebook alone,
    closes the dialog and says so. *)
Theorem settings_survive_reload (settings : AppSettings)
    (localStorage : gmap string string) (st : AppState) :
  let saved := saveSettings settings localStorage st in
  settings_init (fst saved) = Fulfilled (Parsed (settingsValue settings))
  /\ savedItems_init (fst saved) = savedItems_init localStorage
  /\ showSettings (snd saved) = false
  /\ alerts (snd saved) = "Settings saved!" :: alerts st
  /\ savedItems (snd saved) = savedItems st
  /\ (forall settings',
        settingsValue settings' = settingsValue settings ->
        settings' = settings).
Proof.
  cbv zeta. unfold saveSettings. cbn [fst snd].
  split; [|split; [|split; [|split; [|split]]]]; try reflexivity.
  - unfold settings_init. rewrite lookup_insert_eq.
    assert (Ht : truthy (stringifySettings settings) = true) by reflexivity.
    rewrite Ht, parse_stringifySettings. reflexivity.
  - unfold savedItems_init. rewrite lookup_insert_ne by discriminate.
    reflexivity.
  - intros [a m] H. destruct settings as [a' m']. unfold settingsValue in H.
    cbn in H. injection H as Ha Hm.
    apply units_inj in Ha, Hm. congruence.
Qed.

(** Settings with a quote, a backslash and a line feed in the key. *)
Example settings_survive_reload_example :
  let settings :=
    {| apiKey := "k" ++ dq ++ String (ascii_of_nat 92) "" ++ nl;
       textModel := "gemini-3-pro-preview" |} in
  settings_init (fst (saveSettings settings ∅ (initialState [])))
  = Fulfilled (Parsed (settingsValue settings)).
Proof. vm_compute. reflexivity. Qed.

End Settings.
